(** * deploy: actions (copy, move, run) -- a shallow embedding of action.go

    The Go source is one file, [action.go].  It decodes a YAML record into an
    [Action], dispatches on the decoded variant and runs one of three
    executors.  The executors talk to the operating system, so the embedding
    threads an explicit [World] (file system, ambient process state, the
    subprocess oracle and a chronological trace of the calls made) through
    every function, and returns Go's [error] results as values. *)

From Stdlib Require Import ZArith Ascii String List Bool Lia.
From stdpp Require Import base option list strings gmap fin_maps.

Local Open Scope string_scope.
Local Open Scope Z_scope.

(** ** Go strings and integers *)

(** A Go [string] is a sequence of bytes; [String.string] is a sequence of
    8-bit [ascii] characters.  File contents are kept as byte lists. *)
Abbreviation bytes := (list Byte.byte).

Definition chars (s : string) : list ascii := list_ascii_of_string s.
Definition text (l : list ascii) : string := string_of_list_ascii l.

(** Go's [int] on the 64-bit targets and [int64]: wrap-around on overflow. *)
Definition wrap64 (z : Z) : Z := (z + 2 ^ 63) mod 2 ^ 64 - 2 ^ 63.

(** ** package errors *)

Inductive Errno :=
| ENOENT | EEXIST | EISDIR | ENOTDIR | ENOTEMPTY | EINVAL | ENOSPC | EPIPE.

(** The dynamic types an [error] value takes in this program. *)
#[warnings="-register-all"]
Inductive Err :=
| ErrString (msg : string)                       (* errors.New *)
| ErrPath (op path : string) (errno : Errno)     (* *fs.PathError *)
| ErrLink (op old new : string) (errno : Errno)  (* *os.LinkError *)
| ErrExec (name : string) (msg : string)         (* *exec.Error *)
| ErrExit (code : Z)                             (* *exec.ExitError *)
| ErrContext (msg : string)                      (* context errors *)
| ErrYaml (msg : string)                         (* *yaml.TypeError *)
| ErrJoin (errs : list Err).                     (* errors.Join *)

(** Go's [error] interface: [None] is [nil]. *)
Definition error := option Err.

(** A Go result pair [(value, err)]: the value, or the error when it is not
    nil.  [error_of] is its [err]. *)
Definition error_of {A : Type} (r : A + Err) : error :=
  match r with
  | inl _ => None
  | inr e => Some e
  end.

Module errors.

Definition New (msg : string) : error := Some (ErrString msg).

(** [errors.Join] drops the nil arguments; it is nil when nothing is left and
    otherwise wraps what is left, in order. *)
Definition Join (errs : list error) : error :=
  match omap id errs with
  | [] => None
  | l => Some (ErrJoin l)
  end.

End errors.

(** ** package strings *)

Fixpoint last_index_from (substr s : string) (i acc : Z) : Z :=
  let acc := if String.prefix substr s then i else acc in
  match s with
  | EmptyString => acc
  | String _ s' => last_index_from substr s' (i + 1) acc
  end.

(** [strings.LastIndex]: the index of the last instance of [substr] in [s],
    or -1. *)
Definition strings_LastIndex (s substr : string) : Z :=
  last_index_from substr s 0 (-1).

(** [strings.Join]. *)
Fixpoint strings_Join (elems : list string) (sep : string) : string :=
  match elems with
  | [] => ""
  | [e] => e
  | e :: rest => e ++ sep ++ strings_Join rest sep
  end.

(** The slice expression [s[:n]]. *)
Definition slice_to (s : string) (n : Z) : string :=
  String.substring 0 (Z.to_nat n) s.

(** ** package path/filepath (Unix) *)

Module filepath.

Definition Separator : ascii := "/"%char.

Definition IsPathSeparator (c : ascii) : bool := Ascii.eqb c Separator.

Definition is_dot (c : ascii) : bool := Ascii.eqb c "."%char.

(** At the end of the input or at a separator. *)
Definition at_boundary (rest : list ascii) : bool :=
  match rest with
  | [] => true
  | c :: _ => IsPathSeparator c
  end.

(** The [..] case of [Clean] when it can backtrack: [out.w--] and then
    [for out.w > dotdot && !IsPathSeparator(out.index(out.w)) { out.w-- }].
    The buffer is kept reversed, so its head is the byte at [out.w - 1]. *)
Fixpoint backtrack (dotdot : nat) (out : list ascii) : list ascii :=
  match out with
  | [] => []
  | c :: out' =>
      if (dotdot <? length out')%nat && negb (IsPathSeparator c)
      then backtrack dotdot out'
      else out'
  end.

(** Splits off the bytes before the first separator. *)
Fixpoint element (rest : list ascii) : list ascii * list ascii :=
  match rest with
  | [] => ([], [])
  | c :: rest' =>
      if IsPathSeparator c then ([], rest)
      else let '(e, r) := element rest' in (c :: e, r)
  end.

(** The main loop of [Clean].  [rest] is [path[r:]], [out] the reversed
    contents of the output buffer ([out.w] is its length).  Every turn
    consumes input, so [length path] turns are enough. *)
Fixpoint clean_loop (fuel : nat) (rooted : bool) (rest out : list ascii)
    (dotdot : nat) : list ascii :=
  match fuel with
  | O => out
  | S fuel =>
      match rest with
      | [] => out
      | c :: r1 =>
          if IsPathSeparator c then
            (* empty path element *)
            clean_loop fuel rooted r1 out dotdot
          else if is_dot c && at_boundary r1 then
            (* . element *)
            clean_loop fuel rooted r1 out dotdot
          else
            match r1 with
            | c1 :: r2 =>
                if is_dot c && is_dot c1 && at_boundary r2 then
                  (* .. element: remove to last separator *)
                  if (dotdot <? length out)%nat then
                    clean_loop fuel rooted r2 (backtrack dotdot out) dotdot
                  else if negb rooted then
                    let out := if (0 <? length out)%nat
                               then Separator :: out else out in
                    let out := "."%char :: "."%char :: out in
                    clean_loop fuel rooted r2 out (length out)
                  else
                    clean_loop fuel rooted r2 out dotdot
                else
                  (* real path element: add slash if needed, copy element *)
                  let out :=
                    if (rooted && negb (length out =? 1)%nat)
                       || (negb rooted && negb (length out =? 0)%nat)
                    then Separator :: out else out in
                  let '(e, r') := element rest in
                  clean_loop fuel rooted r' (rev_append e out) dotdot
            | [] =>
                let out :=
                  if (rooted && negb (length out =? 1)%nat)
                     || (negb rooted && negb (length out =? 0)%nat)
                  then Separator :: out else out in
                let '(e, r') := element rest in
                clean_loop fuel rooted r' (rev_append e out) dotdot
            end
      end
  end.

(** [filepath.Clean]: the shortest path name equivalent to [path] by purely
    lexical processing. *)
Definition Clean (path : string) : string :=
  match chars path with
  | [] => "."
  | c :: tl =>
      let rooted := IsPathSeparator c in
      let out :=
        if rooted
        then clean_loop (length tl) true tl [Separator] 1
        else clean_loop (length (c :: tl)) false (c :: tl) [] 0 in
      match out with
      | [] => "."
      | _ => text (rev out)
      end
  end.

Fixpoint drop_empty (elem : list string) : list string :=
  match elem with
  | "" :: rest => drop_empty rest
  | _ => elem
  end.

(** [filepath.Join]: the first non-empty element and everything after it,
    joined with the separator and cleaned; empty when there is none. *)
Definition Join (elem : list string) : string :=
  match drop_empty elem with
  | [] => ""
  | rest => Clean (strings_Join rest "/")
  end.

Fixpoint strip_separators (rpath : list ascii) : list ascii :=
  match rpath with
  | c :: rest => if IsPathSeparator c then strip_separators rest else rpath
  | [] => []
  end.

(** [filepath.Base]: the last element of [path], trailing separators removed
    first; ["."] for the empty path and ["/"] for a path of separators. *)
Definition Base (path : string) : string :=
  match chars path with
  | [] => "."
  | p =>
      let stripped := strip_separators (rev p) in
      match fst (element stripped) with
      | [] => "/"
      | last => text (rev last)
      end
  end.

End filepath.

(** ** The data model of action.go *)

Record Copy := { Copy_From : string; Copy_To : string }.

Record Move := { Move_From : string; Move_To : string }.

Record Run := {
  Run_Path : string;
  Run_Timeout : Z;
  Run_Environment : list string;
  Run_Query : list string
}.

Record ActionType := {
  ActionType_Type : string;
  ActionType_Name : string;
  ActionType_Follow : string
}.

(** [Action.Data] has type [any]; the program stores a [*Copy], a [*Move] or
    a [*Run] in it, and it is nil in a zero [Action] ([DataNil], which every
    type switch and type assertion below treats as they treat any other
    dynamic type).  The executors mutate the struct behind the pointer; here
    the executor returns the struct and the caller stores it back. *)
Inductive Data :=
| DataNil
| DataCopy (copy : Copy)
| DataMove (move : Move)
| DataRun (run : Run).

Section Actions.

(** [Do], the type of the continuation, is declared elsewhere in the package;
    nothing in action.go looks inside it. *)
Variable Do : Type.

Record Action := {
  Action_Name : string;
  Action_Follow : string;
  Action_Data : Data;
  Action_Next : Do
}.

Record Result := { Result_Next : Do; Result_Error : error }.

End Actions.

Arguments Action_Name {Do}.
Arguments Action_Follow {Do}.
Arguments Action_Data {Do}.
Arguments Action_Next {Do}.
Arguments Result_Next {Do}.
Arguments Result_Error {Do}.

(** Modelled from the spec: the struct [Deploy] is declared elsewhere in the
    package.  action.go reads one field of it, [Folder], the deploy folder
    ("a directory path used only as the default destination root for
    Copy/Move when [to] is omitted"), and passes it on as a [string]. *)
Record Deploy := { Deploy_Folder : string }.

(** ** The operating system

    What the executors can observe of the host.  The model is deterministic:
    a [World] fixes how every call answers.  Paths are resolved lexically
    (there are no symbolic or hard links), and the file system is a finite
    map from absolute, cleaned paths to inodes. *)

Inductive Inode :=
| IFile (data : bytes)
| IDir.

(** An [*exec.Cmd] as action.go configures it. *)
Record Cmd := {
  Cmd_Path : string;
  Cmd_Args : list string;
  Cmd_Env : list string;
  (** the timeout of the command's context in nanoseconds, when it has one *)
  Cmd_Timeout : option Z
}.

(** A started subprocess: what it writes to its two output buffers until it
    is reaped, and the error [Wait] then returns. *)
Record Proc := {
  Proc_stdout : bytes;
  Proc_stderr : bytes;
  Proc_wait : error
}.

Inductive Stream := Stdout | Stderr.

(** The calls made to the host, in the order they are made, each with its
    arguments as the program passes them and the error it returned. *)
Inductive Event :=
| EvOpen (name : string) (r : error)
| EvClose (name : string)
| EvMkdirAll (path : string) (r : error)
| EvCreate (name : string) (r : error)
| EvReadFrom (dst src : string) (n : nat) (r : error)
| EvRename (oldpath newpath : string) (r : error)
| EvLookPath (file : string) (r : error)
| EvGetwd (r : error)
| EvStart (cmd : Cmd) (r : error)
| EvWait (r : error)
| EvReplay (s : Stream) (data : bytes) (r : error).

(** The part of the host the program only reads. *)
Record Host := {
  (** the working directory, an absolute path *)
  Host_wd : string;
  (** the error of [os.Getwd], if it fails *)
  Host_getwd : error;
  (** [os.Environ] *)
  Host_environ : list string;
  (** [exec.LookPath], which searches the directories of PATH *)
  Host_look_path : string -> string * error;
  (** what starting a command leads to: a running subprocess or the error of
      [Start] *)
  Host_spawn : Cmd -> Proc + Err;
  (** the error of a write to the supervisor's own stdout and stderr, when
      such a write fails (a closed descriptor, a broken pipe) *)
  Host_stdout : error;
  Host_stderr : error
}.

Record World := {
  host : Host;
  fs : gmap string Inode;
  (** bytes that can still be written before the device is full *)
  disk_free : nat;
  (** what has been written to the supervisor's stdout and stderr *)
  stdout : bytes;
  stderr : bytes;
  trace : list Event
}.

Definition set_fs (m : gmap string Inode) (w : World) : World :=
  {| host := host w; fs := m; disk_free := disk_free w;
     stdout := stdout w; stderr := stderr w; trace := trace w |}.

Definition set_disk_free (n : nat) (w : World) : World :=
  {| host := host w; fs := fs w; disk_free := n;
     stdout := stdout w; stderr := stderr w; trace := trace w |}.

Definition set_stdout (b : bytes) (w : World) : World :=
  {| host := host w; fs := fs w; disk_free := disk_free w;
     stdout := b; stderr := stderr w; trace := trace w |}.

Definition set_stderr (b : bytes) (w : World) : World :=
  {| host := host w; fs := fs w; disk_free := disk_free w;
     stdout := stdout w; stderr := b; trace := trace w |}.

Definition log (e : Event) (w : World) : World :=
  {| host := host w; fs := fs w; disk_free := disk_free w;
     stdout := stdout w; stderr := stderr w; trace := trace w ++ [e] |}.

(** The events [w'] has seen since [w]. *)
Definition events_since (w w' : World) : list Event :=
  drop (length (trace w)) (trace w').

(** *** Path resolution *)

Definition is_abs (name : string) : bool := String.prefix "/" name.

(** The absolute, cleaned path a name stands for ([filepath.Abs]). *)
Definition resolve (w : World) (name : string) : string :=
  if is_abs name then filepath.Clean name
  else filepath.Join [Host_wd (host w); name].

(** The inode at an absolute path; the root always is a directory. *)
Definition inode (w : World) (p : string) : option Inode :=
  if String.eqb p "/" then Some IDir else fs w !! p.

(** What a name refers to. *)
Definition stat (w : World) (name : string) : option Inode :=
  inode w (resolve w name).

Definition is_dir (w : World) (p : string) : bool :=
  match inode w p with
  | Some IDir => true
  | _ => false
  end.

Definition is_file (w : World) (p : string) : bool :=
  match inode w p with
  | Some (IFile _) => true
  | _ => false
  end.

(** The non-empty elements of a path. *)
Fixpoint elements_of (fuel : nat) (rest : list ascii) : list string :=
  match fuel with
  | O => []
  | S fuel =>
      match rest with
      | [] => []
      | c :: rest' =>
          if filepath.IsPathSeparator c then elements_of fuel rest'
          else let '(e, r) := filepath.element rest in
               text e :: elements_of fuel r
      end
  end.

Fixpoint below (prefix : string) (elems : list string) : list string :=
  match elems with
  | [] => []
  | e :: rest => let p := prefix ++ "/" ++ e in p :: below p rest
  end.

(** An absolute path's ancestors and itself, the root left out, outermost
    first: ["/a"; "/a/b"] for ["/a/b"]. *)
Definition ancestors (p : string) : list string :=
  below "" (elements_of (String.length p) (chars p)).

(** The directory an absolute, cleaned path lies in. *)
Definition parent (p : string) : string :=
  let i := strings_LastIndex p "/" in
  if i <=? 0 then "/" else slice_to p i.

(** [p] is [dir] or lies below it. *)
Definition under (dir p : string) : bool :=
  String.eqb p dir || String.prefix (dir ++ "/") p.

Definition has_children (w : World) (dir : string) : bool :=
  existsb (fun kv => String.prefix (dir ++ "/") (fst kv)) (map_to_list (fs w)).

(** Moves the tree rooted at [old] to [new]. *)
Definition move_tree (old new : string) (m : gmap string Inode)
    : gmap string Inode :=
  let rekey (kv : string * Inode) :=
    (new ++ String.substring (String.length old)
                             (String.length (fst kv) - String.length old)
                             (fst kv),
     snd kv) in
  list_to_map (map rekey (filter (fun kv => under old (fst kv) = true)
                                 (map_to_list m)))
  ∪ filter (fun kv => under old (fst kv) = false) m.

(** ** package os *)

(** An [*os.File]: the name it was opened under and the path that resolved
    to.  This program reads or writes a handle once, from the start. *)
Record File := { File_name : string; File_path : string }.

Module os.

(** [File.Name]: the name of the file as presented to [Open]. *)
Definition Name (f : File) : string := File_name f.

(** [os.Open]: opens a file or a directory for reading. *)
Definition Open (name : string) (w : World) : World * (File + Err) :=
  let r :=
    if String.eqb name "" then inr (ErrPath "open" name ENOENT)
    else match stat w name with
         | Some _ => inl {| File_name := name; File_path := resolve w name |}
         | None => inr (ErrPath "open" name ENOENT)
         end in
  (log (EvOpen name (error_of r)) w, r).

(** [File.Close]. *)
Definition Close (f : File) (w : World) : World :=
  log (EvClose (File_name f)) w.

(** [os.MkdirAll]: creates the directory and the parents it lacks; it is an
    error when one of them exists and is no directory. *)
Definition MkdirAll (path : string) (w : World) : World * error :=
  let p := resolve w path in
  let '(m, r) :=
    if String.eqb path "" then (fs w, Some (ErrPath "mkdir" path ENOENT))
    else if existsb (is_file w) (ancestors p)
    then (fs w, Some (ErrPath "mkdir" path ENOTDIR))
    else (foldr (fun d m => <[d := IDir]> m) (fs w) (ancestors p), None) in
  (log (EvMkdirAll path r) (set_fs m w), r).

(** [os.Create]: creates the file, or truncates it when it exists. *)
Definition Create (name : string) (w : World) : World * (File + Err) :=
  let p := resolve w name in
  let '(m, r) :=
    if String.eqb name "" then (fs w, inr (ErrPath "open" name ENOENT))
    else if is_dir w p then (fs w, inr (ErrPath "open" name EISDIR))
    else if is_file w (parent p) then (fs w, inr (ErrPath "open" name ENOTDIR))
    else if negb (is_dir w (parent p))
    then (fs w, inr (ErrPath "open" name ENOENT))
    else (<[p := IFile []]> (fs w),
          inl {| File_name := name; File_path := p |}) in
  (log (EvCreate name (error_of r))
       (set_fs m w), r).

(** Writes [data] at the start of the file behind [f].  As much as the
    device has room for is written; the rest is reported as [ENOSPC]. *)
Definition write (f : File) (data : bytes) (w : World) : World * nat * error :=
  let n := Nat.min (length data) (disk_free w) in
  let old := match inode w (File_path f) with
             | Some (IFile old) => old
             | _ => []
             end in
  let w := if (0 <? n)%nat
           then set_disk_free (disk_free w - n)
                  (set_fs (<[File_path f := IFile (take n data ++ drop n old)]>
                             (fs w)) w)
           else w in
  (w, n, if (n <? length data)%nat
         then Some (ErrPath "write" (File_name f) ENOSPC) else None).

(** [File.ReadFrom] with another file as the reader: reads [src] to its
    end and writes all of it to [f]. *)
Definition ReadFrom (f src : File) (w : World) : World * nat * error :=
  let '(w, n, r) :=
    match inode w (File_path src) with
    | Some (IFile data) => write f data w
    | Some IDir => (w, 0%nat, Some (ErrPath "read" (File_name src) EISDIR))
    | None => (w, 0%nat, Some (ErrPath "read" (File_name src) ENOENT))
    end in
  (log (EvReadFrom (File_name f) (File_name src) n r) w, n, r).

(** [os.Rename].  Renaming a path to itself succeeds and changes nothing; a
    file replaces a file; a directory moves with everything below it and
    replaces an empty directory only. *)
Definition Rename (oldpath newpath : string) (w : World) : World * error :=
  let o := resolve w oldpath in
  let n := resolve w newpath in
  let fail errno := (fs w, Some (ErrLink "rename" oldpath newpath errno)) in
  let '(m, r) :=
    if String.eqb oldpath "" || String.eqb newpath "" then fail ENOENT
    else if String.eqb o "/" || String.eqb n "/" then fail EINVAL
    else match inode w o with
         | None => fail ENOENT
         | Some src =>
             if is_file w (parent n) then fail ENOTDIR
             else if negb (is_dir w (parent n)) then fail ENOENT
             else if String.eqb o n then (fs w, None)
             else match src, inode w n with
                  | IFile _, Some IDir => fail EISDIR
                  | IFile data, _ => (<[n := IFile data]> (delete o (fs w)), None)
                  | IDir, Some (IFile _) => fail ENOTDIR
                  | IDir, _ =>
                      if under o n then fail EINVAL
                      else if has_children w n then fail ENOTEMPTY
                      else (move_tree o n (fs w), None)
                  end
         end in
  (log (EvRename oldpath newpath r) (set_fs m w), r).

(** [os.Getwd]. *)
Definition Getwd (w : World) : World * string * error :=
  let r := Host_getwd (host w) in
  (log (EvGetwd r) w,
   match r with None => Host_wd (host w) | Some _ => "" end, r).

(** [os.Environ]. *)
Definition Environ (w : World) : list string := Host_environ (host w).

(** [os.Stdout.ReadFrom] and [os.Stderr.ReadFrom] with a [*bytes.Buffer] as
    the reader: the buffer writes itself to the stream in one [Write], and
    does not write at all when it is empty. *)
Definition Replay (s : Stream) (buffer : bytes) (w : World) : World * error :=
  let fault := match s with
               | Stdout => Host_stdout (host w)
               | Stderr => Host_stderr (host w)
               end in
  let '(w, r) :=
    match buffer, fault with
    | [], _ => (w, None)
    | _, Some e => (w, Some e)
    | _, None =>
        (match s with
         | Stdout => set_stdout (stdout w ++ buffer) w
         | Stderr => set_stderr (stderr w ++ buffer) w
         end, None)
    end in
  (log (EvReplay s buffer r) w, r).

End os.

(** ** package bufio *)

(** A [*bufio.Writer]: the file it writes to and the bytes it holds that are
    not written yet ([Buffered] is their number). *)
Record Writer := { Writer_wr : File; Writer_buf : bytes; Writer_size : nat }.

Module bufio.

Definition defaultBufSize : nat := 4096.

Definition NewWriter (f : File) : Writer :=
  {| Writer_wr := f; Writer_buf := []; Writer_size := defaultBufSize |}.

Definition Buffered (b : Writer) : nat := length (Writer_buf b).

(** [Writer.ReadFrom].  The underlying [*os.File] has a [ReadFrom] of its
    own, and a writer with nothing buffered hands the reader over to it.  A
    writer that holds bytes fills its buffer first; it flushes once the
    buffer is full and then hands over, and if the reader ends before that,
    everything read stays in the buffer until someone calls [Flush]. *)
Definition ReadFrom (b : Writer) (r : File) (w : World)
    : World * Writer * nat * error :=
  if (Buffered b =? 0)%nat then
    let '(w, n, err) := os.ReadFrom (Writer_wr b) r w in (w, b, n, err)
  else
    match inode w (File_path r) with
    | Some (IFile data) =>
        let room := (Writer_size b - Buffered b)%nat in
        if (length data <? room)%nat then
          (w, {| Writer_wr := Writer_wr b;
                 Writer_buf := Writer_buf b ++ data;
                 Writer_size := Writer_size b |}, length data, None)
        else
          let '(w, n, err) := os.write (Writer_wr b) (Writer_buf b ++ data) w in
          (w, {| Writer_wr := Writer_wr b;
                 Writer_buf := drop n (Writer_buf b ++ data);
                 Writer_size := Writer_size b |},
           (n - Buffered b)%nat, err)
    | Some IDir => (w, b, 0%nat, Some (ErrPath "read" (File_name r) EISDIR))
    | None => (w, b, 0%nat, Some (ErrPath "read" (File_name r) ENOENT))
    end.

End bufio.

(** ** package os/exec and package time *)

Module time.

Definition Second : Z := 1000000000.

(** [time.Duration(n) * d] on [int64]. *)
Definition Duration_mul (n d : Z) : Z := wrap64 (wrap64 n * d).

End time.

Module exec.

(** [exec.LookPath]. *)
Definition LookPath (file : string) (w : World) : World * string * error :=
  let '(path, r) := Host_look_path (host w) file in
  (log (EvLookPath file r) w, path, r).

(** [exec.Command]: the command runs [name] with [arg] after the program
    name in its argument vector, and has no context. *)
Definition Command (name : string) (arg : list string) : Cmd :=
  {| Cmd_Path := name; Cmd_Args := name :: arg; Cmd_Env := [];
     Cmd_Timeout := None |}.

(** [exec.CommandContext] under [context.WithTimeout(context.Background(), d)]. *)
Definition CommandContext (d : Z) (name : string) (arg : list string) : Cmd :=
  {| Cmd_Path := name; Cmd_Args := name :: arg; Cmd_Env := [];
     Cmd_Timeout := Some d |}.

Definition set_Env (env : list string) (c : Cmd) : Cmd :=
  {| Cmd_Path := Cmd_Path c; Cmd_Args := Cmd_Args c; Cmd_Env := env;
     Cmd_Timeout := Cmd_Timeout c |}.

(** [Cmd.Start]. *)
Definition Start (c : Cmd) (w : World) : World * (Proc + Err) :=
  let r := Host_spawn (host w) c in
  (log (EvStart c (error_of r)) w, r).

(** [Cmd.Wait]: when it returns, the subprocess has exited and its output
    is in the two buffers. *)
Definition Wait (p : Proc) (w : World) : World * error :=
  (log (EvWait (Proc_wait p)) w, Proc_wait p).

End exec.

(** ** package yaml

    A [*yaml.Node] as the decoder sees it: null, a scalar (its text and, when
    the text reads as an integer, its value), a sequence, or a mapping with
    scalar keys in the order of the document. *)

#[warnings="-register-all"]
Inductive Node :=
| NNull
| NScalar (value : string) (int : option Z)
| NSequence (content : list Node)
| NMapping (content : list (string * Node)).

Module yaml.

Definition field (key : string) (content : list (string * Node)) : option Node :=
  snd <$> List.find (fun kv => String.eqb (fst kv) key) content.

Fixpoint has_duplicates (keys : list string) : bool :=
  match keys with
  | [] => false
  | k :: rest => existsb (String.eqb k) rest || has_duplicates rest
  end.

(** Decoding into a [string] field: an absent key leaves the field as it
    is, null clears it, a scalar gives its text. *)
Definition into_string (old : string) (n : option Node) : string * list string :=
  match n with
  | None => (old, [])
  | Some NNull => ("", [])
  | Some (NScalar v _) => (v, [])
  | Some _ => (old, ["cannot unmarshal into string"])
  end.

(** Decoding into an [int] field. *)
Definition into_int (old : Z) (n : option Node) : Z * list string :=
  match n with
  | None => (old, [])
  | Some NNull => (0, [])
  | Some (NScalar _ (Some z)) =>
      if (- 2 ^ 63 <=? z) && (z <? 2 ^ 63) then (z, [])
      else (old, ["cannot unmarshal into int"])
  | Some _ => (old, ["cannot unmarshal into int"])
  end.

(** Decoding into a [[]string] field: the items that decode are kept. *)
Definition into_strings (old : list string) (n : option Node)
    : list string * list string :=
  match n with
  | None => (old, [])
  | Some NNull => ([], [])
  | Some (NSequence items) =>
      (omap (fun i => match i with
                      | NNull => Some ""
                      | NScalar v _ => Some v
                      | _ => None
                      end) items,
       omap (fun i => match i with
                      | NNull | NScalar _ _ => None
                      | _ => Some "cannot unmarshal into string"
                      end) items)
  | Some _ => (old, ["cannot unmarshal into []string"])
  end.

(** Decoding a node into a struct whose fields [fields] fills in from a
    mapping.  Type errors do not stop the decoder: it fills in what it can
    and reports them together. *)
Definition into_struct {A : Type} (old : A)
    (fields : list (string * Node) -> A * list string) (value : Node)
    : A * error :=
  match value with
  | NNull => (old, None)
  | NMapping content =>
      if has_duplicates (map fst content)
      then (old, Some (ErrYaml "mapping key already defined"))
      else let '(a, errs) := fields content in
           (a, match errs with
               | [] => None
               | _ => Some (ErrYaml (strings_Join errs "; "))
               end)
  | _ => (old, Some (ErrYaml "cannot unmarshal into struct"))
  end.

Definition Decode_ActionType (value : Node) (t : ActionType) : ActionType * error :=
  into_struct t (fun content =>
    let '(type, e1) := into_string (ActionType_Type t) (field "type" content) in
    let '(name, e2) := into_string (ActionType_Name t) (field "name" content) in
    let '(follow, e3) :=
      into_string (ActionType_Follow t) (field "follow" content) in
    ({| ActionType_Type := type; ActionType_Name := name;
        ActionType_Follow := follow |}, (e1 ++ e2 ++ e3)%list)) value.

Definition Decode_Copy (value : Node) (c : Copy) : Copy * error :=
  into_struct c (fun content =>
    let '(from, e1) := into_string (Copy_From c) (field "from" content) in
    let '(to, e2) := into_string (Copy_To c) (field "to" content) in
    ({| Copy_From := from; Copy_To := to |}, (e1 ++ e2)%list)) value.

Definition Decode_Move (value : Node) (m : Move) : Move * error :=
  into_struct m (fun content =>
    let '(from, e1) := into_string (Move_From m) (field "from" content) in
    let '(to, e2) := into_string (Move_To m) (field "to" content) in
    ({| Move_From := from; Move_To := to |}, (e1 ++ e2)%list)) value.

Definition Decode_Run (value : Node) (r : Run) : Run * error :=
  into_struct r (fun content =>
    let '(path, e1) := into_string (Run_Path r) (field "path" content) in
    let '(timeout, e2) := into_int (Run_Timeout r) (field "timeout" content) in
    let '(environment, e3) :=
      into_strings (Run_Environment r) (field "Environment" content) in
    let '(query, e4) := into_strings (Run_Query r) (field "Query" content) in
    ({| Run_Path := path; Run_Timeout := timeout;
        Run_Environment := environment; Run_Query := query |},
     (e1 ++ e2 ++ e3 ++ e4)%list)) value.

(** [value.Decode(action.Data)]: decodes into the struct [Data] points to. *)
Definition Decode (value : Node) (data : Data) : Data * error :=
  match data with
  | DataCopy c => let '(c, err) := Decode_Copy value c in (DataCopy c, err)
  | DataMove m => let '(m, err) := Decode_Move value m in (DataMove m, err)
  | DataRun r => let '(r, err) := Decode_Run value r in (DataRun r, err)
  | DataNil => (DataNil, Some (ErrString "yaml: unmarshal into nil"))
  end.

End yaml.

(** ** action.go *)

(** The zero values [new] allocates. *)
Definition new_ActionType : ActionType :=
  {| ActionType_Type := ""; ActionType_Name := ""; ActionType_Follow := "" |}.
Definition new_Copy : Copy := {| Copy_From := ""; Copy_To := "" |}.
Definition new_Move : Move := {| Move_From := ""; Move_To := "" |}.
Definition new_Run : Run :=
  {| Run_Path := ""; Run_Timeout := 0; Run_Environment := []; Run_Query := [] |}.

Definition set_Copy_To (to : string) (copy : Copy) : Copy :=
  {| Copy_From := Copy_From copy; Copy_To := to |}.

Definition set_Move_To (to : string) (move : Move) : Move :=
  {| Move_From := Move_From move; Move_To := to |}.

Definition set_Run_Path (path : string) (run : Run) : Run :=
  {| Run_Path := path; Run_Timeout := Run_Timeout run;
     Run_Environment := Run_Environment run; Run_Query := Run_Query run |}.

(** The body of [func (action *Action) Copy(path string) error], after the
    type assertion has produced [copy]. *)
Definition Copy_exec (path : string) (copy : Copy) (w : World)
    : World * Copy * error :=
  match os.Open (Copy_From copy) w with
  | (w, inr err) => (w, copy, Some err)
  | (w, inl source) =>
      (* defer source.Close() *)
      let copy :=
        if String.eqb (Copy_To copy) ""
        then set_Copy_To (filepath.Join [path; os.Name source]) copy
        else copy in
      let folder := strings_LastIndex (Copy_To copy) "/" in
      let '(w, err) :=
        if 0 <? folder
        then os.MkdirAll (slice_to (Copy_To copy) folder) w
        else (w, None) in
      match err with
      | Some _ => (os.Close source w, copy, err)
      | None =>
          match os.Create (Copy_To copy) w with
          | (w, inr err) => (os.Close source w, copy, Some err)
          | (w, inl target) =>
              (* defer target.Close() *)
              let '(w, _, _, err) :=
                bufio.ReadFrom (bufio.NewWriter target) source w in
              (os.Close source (os.Close target w), copy, err)
          end
      end
  end.

(** The body of [func (action *Action) Move(path string) error]. *)
Definition Move_exec (path : string) (move : Move) (w : World)
    : World * Move * error :=
  match os.Open (Move_From move) w with
  | (w, inr err) => (w, move, Some err)
  | (w, inl source) =>
      (* defer source.Close() *)
      let folder := strings_LastIndex (Move_To move) "/" in
      let '(w, err) :=
        if 0 <? folder
        then os.MkdirAll (slice_to (Move_To move) folder) w
        else (w, None) in
      match err with
      | Some _ => (os.Close source w, move, err)
      | None =>
          let move :=
            if String.eqb (Move_To move) ""
            then set_Move_To (filepath.Join [path; os.Name source]) move
            else move in
          let '(w, err) := os.Rename (Move_From move) (Move_To move) w in
          (os.Close source w, move, err)
      end
  end.

(** The body of [func (action *Action) Run() error]. *)
Definition Run_exec (run : Run) (w : World) : World * Run * error :=
  let '(w, run, err) :=
    if String.eqb (filepath.Base (Run_Path run)) (Run_Path run) then
      let '(w, path, err) := exec.LookPath (Run_Path run) w in
      match err with
      | Some _ => (w, run, err)
      | None => (w, set_Run_Path path run, None)
      end
    else
      let '(w, wd, err) := os.Getwd w in
      match err with
      | Some _ => (w, run, err)
      | None => (w, set_Run_Path (filepath.Join [wd; Run_Path run]) run, None)
      end in
  match err with
  | Some _ => (w, run, err)
  | None =>
      (* stdout, stderr: the buffers the subprocess fills, [Proc_stdout] and
         [Proc_stderr] below *)
      let command :=
        if 0 <? Run_Timeout run
        then exec.CommandContext
               (time.Duration_mul (Run_Timeout run) time.Second)
               (Run_Path run) (Run_Query run)
        else exec.Command (Run_Path run) (Run_Query run) in
      let command :=
        exec.set_Env (os.Environ w ++ Run_Environment run) command in
      match exec.Start command w with
      | (w, inr err) => (w, run, Some err)
      | (w, inl proc) =>
          let '(w, err) := exec.Wait proc w in
          let '(w, one) := os.Replay Stdout (Proc_stdout proc) w in
          let '(w, two) := os.Replay Stderr (Proc_stderr proc) w in
          (w, run, errors.Join [err; one; two])
      end
  end.

Section Program.

Context {Do : Type}.

Definition set_Name (name : string) (action : Action Do) : Action Do :=
  {| Action_Name := name; Action_Follow := Action_Follow action;
     Action_Data := Action_Data action; Action_Next := Action_Next action |}.

Definition set_Follow (follow : string) (action : Action Do) : Action Do :=
  {| Action_Name := Action_Name action; Action_Follow := follow;
     Action_Data := Action_Data action; Action_Next := Action_Next action |}.

Definition set_Data (data : Data) (action : Action Do) : Action Do :=
  {| Action_Name := Action_Name action; Action_Follow := Action_Follow action;
     Action_Data := data; Action_Next := Action_Next action |}.

(** [func (action *Action) UnmarshalYAML(value *yaml.Node) error]: the
    [Action] as the call leaves it, and the error. *)
Definition Action_UnmarshalYAML (value : Node) (action : Action Do)
    : Action Do * error :=
  let '(t, err) := yaml.Decode_ActionType value new_ActionType in
  match err with
  | Some _ => (action, err)
  | None =>
      let action :=
        if negb (String.eqb (ActionType_Name t) "")
        then set_Name (ActionType_Name t) action
        else set_Name (ActionType_Type t) action in
      let action := set_Follow (ActionType_Follow t) action in
      let selected :=
        if String.eqb (ActionType_Type t) "copy" then Some (DataCopy new_Copy)
        else if String.eqb (ActionType_Type t) "move" then Some (DataMove new_Move)
        else if String.eqb (ActionType_Type t) "run" then Some (DataRun new_Run)
        else None in
      match selected with
      | None => (action, errors.New "unknown action type")
      | Some data =>
          let action := set_Data data action in
          let '(data, err) := yaml.Decode value (Action_Data action) in
          (set_Data data action, err)
      end
  end.

(** The methods [Copy], [Move] and [Run] of [*Action].  Each starts with a
    type assertion on [action.Data], which panics ([None]) on another
    dynamic type; the struct it mutates is the one [action.Data] points to. *)
Definition Action_Copy (path : string) (action : Action Do) (w : World)
    : option (World * Action Do * error) :=
  match Action_Data action with
  | DataCopy copy =>
      let '(w, copy, err) := Copy_exec path copy w in
      Some (w, set_Data (DataCopy copy) action, err)
  | _ => None
  end.

Definition Action_Move (path : string) (action : Action Do) (w : World)
    : option (World * Action Do * error) :=
  match Action_Data action with
  | DataMove move =>
      let '(w, move, err) := Move_exec path move w in
      Some (w, set_Data (DataMove move) action, err)
  | _ => None
  end.

Definition Action_Run (action : Action Do) (w : World)
    : option (World * Action Do * error) :=
  match Action_Data action with
  | DataRun run =>
      let '(w, run, err) := Run_exec run w in
      Some (w, set_Data (DataRun run) action, err)
  | _ => None
  end.

Definition set_Error (err : error) (result : Result Do) : Result Do :=
  {| Result_Next := Result_Next result; Result_Error := err |}.

(** [func (deploy *Deploy) Process(action *Action) Result]. *)
Definition Deploy_Process (deploy : Deploy) (action : Action Do) (w : World)
    : option (World * Action Do * Result Do) :=
  let result := {| Result_Next := Action_Next action; Result_Error := None |} in
  match Action_Data action with
  | DataCopy _ =>
      '(w, action, err) ← Action_Copy (Deploy_Folder deploy) action w;
      Some (w, action, set_Error err result)
  | DataMove _ =>
      '(w, action, err) ← Action_Move (Deploy_Folder deploy) action w;
      Some (w, action, set_Error err result)
  | DataRun _ =>
      '(w, action, err) ← Action_Run action w;
      Some (w, action, set_Error err result)
  | _ =>
      Some (w, action, set_Error (errors.New "unknown action type") result)
  end.

End Program.

(** ** Sample hosts, worlds and records *)

Definition contents (s : string) : bytes := list_byte_of_string s.

(** A host in [/work] whose programs live in [/bin]; every program prints
    [hi] and exits with status zero. *)
Definition sample_host : Host :=
  {| Host_wd := "/work";
     Host_getwd := None;
     Host_environ := ["PATH=/bin"; "HOME=/root"];
     Host_look_path := fun file => ("/bin/" ++ file, None);
     Host_spawn := fun _ =>
       inl {| Proc_stdout := contents "hi"; Proc_stderr := [];
              Proc_wait := None |};
     Host_stdout := None;
     Host_stderr := None |}.

(** The same host seen from the root directory. *)
Definition root_host : Host :=
  {| Host_wd := "/";
     Host_getwd := None;
     Host_environ := Host_environ sample_host;
     Host_look_path := Host_look_path sample_host;
     Host_spawn := Host_spawn sample_host;
     Host_stdout := None;
     Host_stderr := None |}.

(** The same host with its standard output closed. *)
Definition mute_host : Host :=
  {| Host_wd := "/work";
     Host_getwd := None;
     Host_environ := Host_environ sample_host;
     Host_look_path := Host_look_path sample_host;
     Host_spawn := Host_spawn sample_host;
     Host_stdout := Some (ErrPath "write" "/dev/stdout" EPIPE);
     Host_stderr := None |}.

Definition sample_fs : gmap string Inode :=
  <["/work/a.txt" := IFile (contents "hello")]>
    (<["/work/dir/a.txt" := IFile (contents "nested")]>
       (<["/work/dir" := IDir]> (<["/work" := IDir]> (<["/out" := IDir]> ∅)))).

Definition world_of (h : Host) : World :=
  {| host := h; fs := sample_fs; disk_free := 4096;
     stdout := []; stderr := []; trace := [] |}.

Definition sample_world : World := world_of sample_host.

Definition scalar (s : string) : Node := NScalar s None.

(** [{type: delete, name: cleanup, follow: done}] *)
Definition delete_record : Node :=
  NMapping [("type", scalar "delete"); ("name", scalar "cleanup");
            ("follow", scalar "done")].

Definition zero_Action : Action string :=
  {| Action_Name := ""; Action_Follow := ""; Action_Data := DataNil;
     Action_Next := "" |}.

Definition plain_copy : Copy := {| Copy_From := "a.txt"; Copy_To := "" |}.

Definition nested_copy : Copy := {| Copy_From := "dir/a.txt"; Copy_To := "" |}.

Definition plain_move : Move := {| Move_From := "a.txt"; Move_To := "" |}.

Definition hi_run : Run :=
  {| Run_Path := "echo"; Run_Timeout := 0; Run_Environment := ["GREETING=hi"];
     Run_Query := ["hi"] |}.

Definition absolute_run : Run :=
  {| Run_Path := "/usr/bin/x"; Run_Timeout := 0; Run_Environment := [];
     Run_Query := [] |}.

Definition moved_to_c : Move := {| Move_From := "a.txt"; Move_To := "b/c.txt" |}.

Definition copy_action (copy : Copy) : Action string :=
  {| Action_Name := "copy"; Action_Follow := "next"; Action_Data := DataCopy copy;
     Action_Next := "after-copy" |}.

(** ** Vocabulary of the statements *)

(** [w'] is a later state of [w]: the same host, and the trace grown by
    [evs]. *)
Definition extends (w w' : World) (evs : list Event) : Prop :=
  host w' = host w /\ trace w' = (trace w ++ evs)%list.

(** The command [Run] builds for a resolved [path]. *)
Definition command_for (run : Run) (path : string) (w : World) : Cmd :=
  exec.set_Env (os.Environ w ++ Run_Environment run)%list
    (if 0 <? Run_Timeout run
     then exec.CommandContext (time.Duration_mul (Run_Timeout run) time.Second)
            path (Run_Query run)
     else exec.Command path (Run_Query run)).

(** The error of the executor [Process] selects for a payload. *)
Definition executor_error (deploy : Deploy) (data : Data) (w : World) : error :=
  match data with
  | DataCopy copy => (Copy_exec (Deploy_Folder deploy) copy w).2
  | DataMove move => (Move_exec (Deploy_Folder deploy) move w).2
  | DataRun run => (Run_exec run w).2
  | DataNil => errors.New "unknown action type"
  end.

(** Whether a path has a separator in it. *)
Definition has_separator (path : string) : bool :=
  existsb filepath.IsPathSeparator (chars path).

(** Records as a configuration file holds them: the header keys and the keys
    of the payload, every value a scalar or a sequence of scalars. *)
Definition header_fields (type name follow : string) : list (string * Node) :=
  [("type", scalar type); ("name", scalar name); ("follow", scalar follow)].

Definition Copy_record (name follow : string) (copy : Copy) : Node :=
  NMapping (header_fields "copy" name follow
            ++ [("from", scalar (Copy_From copy)); ("to", scalar (Copy_To copy))]).

Definition Move_record (name follow : string) (move : Move) : Node :=
  NMapping (header_fields "move" name follow
            ++ [("from", scalar (Move_From move)); ("to", scalar (Move_To move))]).

(** [timeout] is the text of the timeout scalar, which reads as the integer
    [Run_Timeout run]. *)
Definition Run_record (name follow : string) (run : Run) (timeout : string)
    : Node :=
  NMapping (header_fields "run" name follow
            ++ [("path", scalar (Run_Path run));
                ("timeout", NScalar timeout (Some (Run_Timeout run)));
                ("Environment", NSequence (map scalar (Run_Environment run)));
                ("Query", NSequence (map scalar (Run_Query run)))]).

(** The display name of a record called [name] of type [type]. *)
Definition display_name (type name : string) : string :=
  if String.eqb name "" then type else name.

(** What an executor leaves of a payload: its kind, the source of a copy or
    a move and a destination that was configured, and everything of a run
    except its path. *)
Definition same_settings (data data' : Data) : Prop :=
  match data, data' with
  | DataNil, DataNil => True
  | DataCopy c, DataCopy c' =>
      Copy_From c' = Copy_From c
      /\ (Copy_To c <> "" -> Copy_To c' = Copy_To c)
  | DataMove m, DataMove m' =>
      Move_From m' = Move_From m
      /\ (Move_To m <> "" -> Move_To m' = Move_To m)
  | DataRun r, DataRun r' =>
      Run_Timeout r' = Run_Timeout r
      /\ Run_Environment r' = Run_Environment r
      /\ Run_Query r' = Run_Query r
  | _, _ => False
  end.


(** The calls that put bytes into a file. *)
Definition writes_bytes (e : Event) : bool :=
  match e with
  | EvCreate _ _ | EvReadFrom _ _ _ _ => true
  | _ => false
  end.

(** How [Run] resolves its path in a world, and the error if it cannot: a
    path that is its own base name goes to [exec.LookPath], any other is
    joined to the working directory. *)
Definition resolved_path (run : Run) (w : World) : string * error :=
  if String.eqb (filepath.Base (Run_Path run)) (Run_Path run)
  then Host_look_path (host w) (Run_Path run)
  else match Host_getwd (host w) with
       | None => (filepath.Join [Host_wd (host w); Run_Path run], None)
       | Some e => ("", Some e)
       end.

(** The call that resolution makes. *)
Definition resolution_event (run : Run) (w : World) : Event :=
  if String.eqb (filepath.Base (Run_Path run)) (Run_Path run)
  then EvLookPath (Run_Path run) (resolved_path run w).2
  else EvGetwd (resolved_path run w).2.

(** What a stream of the supervisor takes of a buffer replayed to it, and
    the error of the replay: a failing stream takes nothing, and an empty
    buffer is no write. *)
Definition replayed (fault : error) (buffer : bytes) : bytes :=
  match fault with
  | None => buffer
  | Some _ => []
  end.

Definition replay_error (fault : error) (buffer : bytes) : error :=
  match buffer with
  | [] => None
  | _ => fault
  end.

(** A run of a program that is not installed, on a host whose search path
    has nothing. *)
Definition bare_host : Host :=
  {| Host_wd := "/work";
     Host_getwd := None;
     Host_environ := [];
     Host_look_path := fun file => ("", Some (ErrExec file "not found"));
     Host_spawn := fun c => inr (ErrPath "fork/exec" (Cmd_Path c) ENOENT);
     Host_stdout := None;
     Host_stderr := None |}.

Definition timed_run : Run :=
  {| Run_Path := "sleep"; Run_Timeout := 1; Run_Environment := [];
     Run_Query := ["5"] |}.

(** ** Properties *)

(** *** Paths: the cases of Go's own tests *)

Example Clean_cases :
  map filepath.Clean
      [""; "abc"; "abc//def//ghi"; "abc/./def"; "abc/def/.."; "abc/def/../..";
       "/abc/def/../../.."; "abc/def/../../../ghi/jkl/../../../mno";
       "/../abc"; "abc/../../././../def"; "//abc//"; "../"]
  = ["."; "abc"; "abc/def/ghi"; "abc/def"; "abc"; "."; "/"; "../../mno";
     "/abc"; "../../def"; "/abc"; ".."].
Proof. reflexivity. Qed.

Example Base_cases :
  map filepath.Base [""; "."; "/."; "/"; "////"; "x/"; "abc/def"; "a/b/.x"]
  = ["."; "."; "."; "/"; "/"; "x"; "def"; ".x"].
Proof. reflexivity. Qed.

Example Join_cases :
  map filepath.Join
      [["/out"; "a.txt"]; ["/out"; "dir/a.txt"]; ["/out"; "/abs/a.txt"];
       ["."; "a.txt"]; ["/"; "/usr/bin/x"]; [""; ""]; ["a"; ""]]
  = ["/out/a.txt"; "/out/dir/a.txt"; "/out/abs/a.txt"; "a.txt"; "/usr/bin/x";
     ""; "a"].
Proof. reflexivity. Qed.

Example LastIndex_cases :
  map (fun s => strings_LastIndex s "/") [""; "a.txt"; "/a"; "b/c/d.txt"]
  = [-1; -1; 0; 3].
Proof. reflexivity. Qed.

(** *** The trace *)

(** Splits a hypothesis that an event is in a list of events written out
    into its cases, and drops the cases where the constructors differ. *)
Ltac event_cases H :=
  rewrite ?in_app_iff in H; simpl in H;
  repeat match type of H with
         | _ \/ _ => destruct H as [H | H]
         | False => destruct H
         end;
  try discriminate H.

Lemma events_since_app (w w' : World) (evs : list Event) :
  trace w' = (trace w ++ evs)%list -> events_since w w' = evs.
Proof.
  intros H. unfold events_since. rewrite H. apply drop_app_length.
Qed.

Lemma triple_eta {A B C : Type} (x : A * B * C) : x = (x.1.1, x.1.2, x.2).
Proof. by destruct x as [[? ?] ?]. Qed.

(** *** Decoding and dispatch *)

(** C8: for every Action the dispatcher processes, the Result's [Next] is the
    Action's continuation value, whatever error the executor returns (the
    Result carries that error, nil or not), and the Action keeps its
    continuation. *)
Theorem Process_passes_next {Do : Type} (deploy : Deploy) (action : Action Do)
    (w : World) :
  exists w' action' result,
    Deploy_Process deploy action w = Some (w', action', result)
    /\ Result_Next result = Action_Next action
    /\ Action_Next action' = Action_Next action
    /\ Result_Error result = executor_error deploy (Action_Data action) w.
Proof.
  unfold Deploy_Process, Action_Copy, Action_Move, Action_Run, executor_error.
  destruct (Action_Data action) as [|copy|move|run]; simpl.
  - do 3 eexists. repeat split.
  - destruct (Copy_exec _ copy w) as [[w' copy'] err]. simpl.
    do 3 eexists. repeat split.
  - destruct (Move_exec _ move w) as [[w' move'] err]. simpl.
    do 3 eexists. repeat split.
  - destruct (Run_exec run w) as [[w' run'] err]. simpl.
    do 3 eexists. repeat split.
Qed.

(** A Copy that succeeds and a Copy whose source is missing: the same
    [Next] either way. *)
Example Process_copy_ok :
  (fun r => (Result_Next r.2, Result_Error r.2))
    <$> Deploy_Process {| Deploy_Folder := "/out" |}
          (copy_action plain_copy) sample_world
  = Some ("after-copy", None).
Proof. vm_compute. reflexivity. Qed.

Example Process_copy_fails :
  (fun r => (Result_Next r.2, Result_Error r.2))
    <$> Deploy_Process {| Deploy_Folder := "/out" |}
          (copy_action {| Copy_From := "missing.txt"; Copy_To := "" |})
          sample_world
  = Some ("after-copy", Some (ErrPath "open" "missing.txt" ENOENT)).
Proof. vm_compute. reflexivity. Qed.

(** C7, as stated, fails: decoding a record of an unknown type leaves the
    target Action changed.  [UnmarshalYAML] assigns [Name] and [Follow]
    before it looks at the type. *)
Lemma UnmarshalYAML_unknown_type_not_untouched :
  ~ (forall (value : Node) (action : Action string) (t : ActionType),
       yaml.Decode_ActionType value new_ActionType = (t, None) ->
       ActionType_Type t <> "copy" ->
       ActionType_Type t <> "move" ->
       ActionType_Type t <> "run" ->
       Action_UnmarshalYAML value action
       = (action, errors.New "unknown action type")).
Proof.
  intros H.
  specialize (H delete_record zero_Action
                {| ActionType_Type := "delete"; ActionType_Name := "cleanup";
                   ActionType_Follow := "done" |}).
  vm_compute in H.
  specialize (H eq_refl).
  assert (E : (zero_Action, Some (ErrString "unknown action type"))
              <> ({| Action_Name := "cleanup"; Action_Follow := "done";
                     Action_Data := DataNil; Action_Next := "" |},
                  Some (ErrString "unknown action type"))) by discriminate.
  apply E. symmetry. apply H; discriminate.
Qed.

(** C7, amended: for every record whose header decodes and whose [type] is
    none of copy, move and run, decoding fails with the error
    "unknown action type"; the payload [Data] and the continuation [Next] of
    the target Action are left as they were, while [Name] (the record's name,
    or its type when it has none) and [Follow] have already been assigned. *)
Theorem UnmarshalYAML_unknown_type {Do : Type} (value : Node)
    (action : Action Do) (t : ActionType) :
  yaml.Decode_ActionType value new_ActionType = (t, None) ->
  ActionType_Type t <> "copy" ->
  ActionType_Type t <> "move" ->
  ActionType_Type t <> "run" ->
  exists action',
    Action_UnmarshalYAML value action
    = (action', errors.New "unknown action type")
    /\ Action_Data action' = Action_Data action
    /\ Action_Next action' = Action_Next action
    /\ Action_Name action'
       = (if String.eqb (ActionType_Name t) "" then ActionType_Type t
          else ActionType_Name t)
    /\ Action_Follow action' = ActionType_Follow t.
Proof.
  intros Hdec Hcopy Hmove Hrun.
  unfold Action_UnmarshalYAML. rewrite Hdec.
  apply String.eqb_neq in Hcopy, Hmove, Hrun.
  rewrite Hcopy, Hmove, Hrun.
  eexists. split; [reflexivity |].
  destruct (String.eqb (ActionType_Name t) ""); simpl; auto.
Qed.

Lemma UnmarshalYAML_unknown_type_witness :
  exists action' : Action string,
    Action_UnmarshalYAML delete_record zero_Action
    = (action', errors.New "unknown action type")
    /\ Action_Data action' = DataNil
    /\ Action_Next action' = ""
    /\ Action_Name action' = "cleanup"
    /\ Action_Follow action' = "done".
Proof.
  apply (UnmarshalYAML_unknown_type delete_record zero_Action
           {| ActionType_Type := "delete"; ActionType_Name := "cleanup";
              ActionType_Follow := "done" |});
    [reflexivity | discriminate | discriminate | discriminate].
Defined.

(** *** How the calls change the world *)

Lemma extends_refl (w : World) : extends w w [].
Proof. split; [reflexivity | symmetry; apply app_nil_r]. Qed.

Lemma extends_trans (w1 w2 w3 : World) (a b : list Event) :
  extends w1 w2 a -> extends w2 w3 b -> extends w1 w3 (a ++ b)%list.
Proof.
  intros [Hh1 Ht1] [Hh2 Ht2]. split.
  - congruence.
  - rewrite Ht2, Ht1. symmetry. apply app_assoc.
Qed.

Lemma extends_events (w w' : World) (evs : list Event) :
  extends w w' evs -> events_since w w' = evs.
Proof. intros [_ H]. by apply events_since_app. Qed.

Lemma extends_log (e : Event) (w : World) : extends w (log e w) [e].
Proof. by split. Qed.

Lemma Open_extends (name : string) (w w' : World) (r : File + Err) :
  os.Open name w = (w', r) -> extends w w' [EvOpen name (error_of r)].
Proof. unfold os.Open. intros [= <- <-]. apply extends_log. Qed.

Lemma Open_fs (name : string) (w w' : World) (r : File + Err) :
  os.Open name w = (w', r) -> fs w' = fs w /\ disk_free w' = disk_free w.
Proof. unfold os.Open. intros [= <- <-]. by split. Qed.

(** A handle [Open] returns carries the name it was given and the path the
    name resolves to, where something exists. *)
Lemma Open_ok (name : string) (w w' : World) (f : File) :
  os.Open name w = (w', inl f) ->
  File_name f = name /\ File_path f = resolve w name
  /\ is_Some (stat w name) /\ name <> "".
Proof.
  unfold os.Open. intros [= _ H].
  destruct (String.eqb_spec name ""); [discriminate |].
  destruct (stat w name) eqn:Hs; [| discriminate].
  injection H as <-. simpl. eauto.
Qed.

Lemma Close_extends (f : File) (w : World) :
  extends w (os.Close f w) [EvClose (File_name f)].
Proof. apply extends_log. Qed.

Lemma MkdirAll_extends (path : string) (w w' : World) (r : error) :
  os.MkdirAll path w = (w', r) -> extends w w' [EvMkdirAll path r].
Proof.
  unfold os.MkdirAll.
  destruct (if String.eqb path "" then _ else _) as [m r'].
  intros [= <- <-]. by split.
Qed.

Lemma Create_extends (name : string) (w w' : World) (r : File + Err) :
  os.Create name w = (w', r) -> extends w w' [EvCreate name (error_of r)].
Proof.
  unfold os.Create.
  destruct (if String.eqb name "" then _ else _) as [m r'].
  intros [= <- <-]. by split.
Qed.

Lemma write_extends (f : File) (data : bytes) (w w' : World) (n : nat)
    (r : error) :
  os.write f data w = (w', n, r) -> extends w w' [].
Proof.
  unfold os.write. intros [= <- _ _].
  destruct (0 <? _)%nat; split; simpl; by rewrite ?app_nil_r.
Qed.

Lemma File_ReadFrom_extends (f src : File) (w w' : World) (n : nat)
    (r : error) :
  os.ReadFrom f src w = (w', n, r) ->
  extends w w' [EvReadFrom (File_name f) (File_name src) n r].
Proof.
  unfold os.ReadFrom.
  destruct (match inode w (File_path src) with
            | Some (IFile data) => os.write f data w
            | Some IDir => _
            | None => _
            end) as [[w1 n1] r1] eqn:H.
  intros [= <- <- <-].
  assert (extends w w1 []) as [Hh Ht].
  { destruct (inode w (File_path src)) as [[data|]|].
    - by eapply write_extends.
    - injection H as <- _ _. apply extends_refl.
    - injection H as <- _ _. apply extends_refl. }
  split; simpl; [done |]. rewrite Ht. by rewrite app_nil_r.
Qed.

(** A new [bufio.Writer] passes [ReadFrom] on to the file: the transfer is
    the file's own, and the writer holds nothing afterwards. *)
Lemma NewWriter_ReadFrom (target src : File) (w : World) :
  bufio.ReadFrom (bufio.NewWriter target) src w
  = let '(w', n, err) := os.ReadFrom target src w in
    (w', bufio.NewWriter target, n, err).
Proof. reflexivity. Qed.

Lemma Rename_extends (oldpath newpath : string) (w w' : World) (r : error) :
  os.Rename oldpath newpath w = (w', r) ->
  extends w w' [EvRename oldpath newpath r].
Proof.
  unfold os.Rename.
  destruct (if String.eqb oldpath "" || String.eqb newpath "" then _ else _)
    as [m r'].
  intros [= <- <-]. by split.
Qed.

(** The directory-creation step of [Copy] and [Move]: one [MkdirAll] when
    the separator is found past the first byte, and nothing otherwise. *)
Lemma mkdir_step (folder : Z) (to : string) (w w2 : World) (err : error) :
  (if 0 <? folder then os.MkdirAll (slice_to to folder) w else (w, None))
  = (w2, err) ->
  (0 < folder /\ extends w w2 [EvMkdirAll (slice_to to folder) err])
  \/ (folder <= 0 /\ w2 = w /\ err = None).
Proof.
  destruct (Z.ltb_spec 0 folder) as [Hlt | Hge]; intros Hs.
  - left. split; [done |]. by apply MkdirAll_extends.
  - right. by injection Hs as <- <-.
Qed.

(** *** Copy *)

(** C1, as stated, fails: with [from = "dir/a.txt"], no [to] and the deploy
    folder [/out], the destination is [/out/dir/a.txt], not [/out/a.txt]. *)
Lemma Copy_default_destination_not_basename :
  ~ (forall (path : string) (copy : Copy) (w w1 w' : World) (source : File)
            (copy' : Copy) (err : error),
       Copy_To copy = "" ->
       os.Open (Copy_From copy) w = (w1, inl source) ->
       Copy_exec path copy w = (w', copy', err) ->
       Copy_To copy' = filepath.Join [path; filepath.Base (Copy_From copy)]).
Proof.
  intros H.
  destruct (os.Open (Copy_From nested_copy) sample_world)
    as [w1 [source | e]] eqn:Ho; [| vm_compute in Ho; discriminate Ho].
  destruct (Copy_exec "/out" nested_copy sample_world)
    as [[w' copy'] err] eqn:He.
  specialize (H "/out" nested_copy sample_world w1 w' source copy' err
                eq_refl Ho He).
  vm_compute in He. injection He as _ <- _.
  vm_compute in H. discriminate H.
Qed.

(** C1, amended: for every Copy action whose [to] is empty at execution time
    and whose source opens, the executor sets the destination to the deploy
    folder joined with [from] as it is configured, directory component
    included ([File.Name] is the name given to [Open]); that is the path it
    creates, and it is [<deployFolder>/<basename(from)>] when [from] is its
    own base name. *)
Theorem Copy_default_destination (path : string) (copy : Copy)
    (w w1 w' : World) (source : File) (copy' : Copy) (err : error) :
  Copy_To copy = "" ->
  os.Open (Copy_From copy) w = (w1, inl source) ->
  Copy_exec path copy w = (w', copy', err) ->
  Copy_To copy' = filepath.Join [path; Copy_From copy]
  /\ (forall name r, In (EvCreate name r) (events_since w w') ->
                     name = filepath.Join [path; Copy_From copy])
  /\ (filepath.Base (Copy_From copy) = Copy_From copy ->
      Copy_To copy' = filepath.Join [path; filepath.Base (Copy_From copy)]).
Proof.
  intros Hto Hopen Hexec.
  destruct (Open_ok _ _ _ _ Hopen) as (Hname & _ & _ & _).
  pose proof (Open_extends _ _ _ _ Hopen) as X1.
  unfold Copy_exec in Hexec. rewrite Hopen, Hto in Hexec. simpl in Hexec.
  unfold os.Name in Hexec. rewrite Hname in Hexec.
  set (to := filepath.Join [path; Copy_From copy]) in *.
  destruct (if 0 <? strings_LastIndex to "/" then _ else _)
    as [w2 err2] eqn:Hmk.
  assert (exists evs, extends w1 w2 evs
                      /\ forall name r, ~ In (EvCreate name r) evs)
    as (evs & X2 & Hevs).
  { destruct (mkdir_step _ _ _ _ _ Hmk) as [[_ X] | (_ & -> & _)].
    - eexists. split; [exact X |]. intros name r Hin. event_cases Hin.
    - exists []. split; [apply extends_refl | intros ? ? []]. }
  pose proof (extends_trans _ _ _ _ _ X1 X2) as X.
  assert (Copy_To copy' = to
          /\ forall name r, In (EvCreate name r) (events_since w w') ->
                            name = to) as [Hto' Hcreate].
  { destruct err2 as [e2 |].
    - (* MkdirAll failed *)
      injection Hexec as <- <- <-. split; [reflexivity |].
      intros name r Hin.
      rewrite (extends_events _ _ _
                 (extends_trans _ _ _ _ _ X (Close_extends source w2))) in Hin.
      event_cases Hin. by apply Hevs in Hin.
    - destruct (os.Create to w2) as [w3 [target | e3]] eqn:Hcr.
      + (* the transfer ran *)
        rewrite NewWriter_ReadFrom in Hexec.
        destruct (os.ReadFrom target source w3) as [[w4 n] err4] eqn:Hrd.
        injection Hexec as <- <- <-. split; [reflexivity |].
        intros name r Hin.
        rewrite (extends_events _ _ _
                   (extends_trans _ _ _ _ _
                      (extends_trans _ _ _ _ _
                         (extends_trans _ _ _ _ _
                            (extends_trans _ _ _ _ _ X
                               (Create_extends _ _ _ _ Hcr))
                            (File_ReadFrom_extends _ _ _ _ _ _ Hrd))
                         (Close_extends target w4))
                      (Close_extends source _))) in Hin.
        event_cases Hin; [by apply Hevs in Hin | by injection Hin as <- _].
      + (* Create failed *)
        injection Hexec as <- <- <-. split; [reflexivity |].
        intros name r Hin.
        rewrite (extends_events _ _ _
                   (extends_trans _ _ _ _ _
                      (extends_trans _ _ _ _ _ X
                         (Create_extends _ _ _ _ Hcr))
                      (Close_extends source _))) in Hin.
        event_cases Hin; [by apply Hevs in Hin | by injection Hin as <- _]. }
  split; [exact Hto' |]. split; [exact Hcreate |].
  intros Hbase. rewrite Hbase. exact Hto'.
Qed.

Lemma Copy_default_destination_witness :
  Copy_To (Copy_exec "/out" plain_copy sample_world).1.2 = "/out/a.txt".
Proof.
  set (r := Copy_exec "/out" plain_copy sample_world).
  refine (proj1 (Copy_default_destination "/out" plain_copy sample_world
                   (log (EvOpen "a.txt" None) sample_world) r.1.1
                   {| File_name := "a.txt"; File_path := "/work/a.txt" |}
                   r.1.2 r.2 _ _ _)).
  - reflexivity.
  - vm_compute. reflexivity.
  - apply triple_eta.
Defined.

(** *** Move *)



(** *** Run *)

Lemma Replay_extends (s : Stream) (buffer : bytes) (w w' : World) (r : error) :
  os.Replay s buffer w = (w', r) -> extends w w' [EvReplay s buffer r].
Proof.
  unfold os.Replay.
  destruct (match buffer with [] => _ | _ => _ end) as [w1 r1] eqn:H.
  intros [= <- <-].
  assert (host w1 = host w /\ trace w1 = trace w) as [Hh Ht].
  { destruct buffer; [by injection H as <- _ |].
    destruct s; destruct (Host_stdout (host w)), (Host_stderr (host w));
      by injection H as <- _. }
  split; simpl; congruence.
Qed.

(** The three ways [Run] can go: the path does not resolve; the command does
    not start; or it starts, is waited for, and both buffers are replayed. *)
Lemma Run_exec_inv (run : Run) (w w' : World) (run' : Run) (err : error) :
  Run_exec run w = (w', run', err) ->
  exists ev path rerr,
    (if String.eqb (filepath.Base (Run_Path run)) (Run_Path run)
     then ev = EvLookPath (Run_Path run) rerr
          /\ Host_look_path (host w) (Run_Path run) = (path, rerr)
     else ev = EvGetwd rerr
          /\ Host_getwd (host w) = rerr
          /\ (rerr = None ->
              path = filepath.Join [Host_wd (host w); Run_Path run]))
    /\ match rerr with
       | Some _ => run' = run /\ err = rerr /\ extends w w' [ev]
       | None =>
           run' = set_Run_Path path run
           /\ match Host_spawn (host w) (command_for run path w) with
              | inr e =>
                  err = Some e
                  /\ extends w w' [ev; EvStart (command_for run path w) (Some e)]
              | inl proc =>
                  exists one two,
                    err = errors.Join [Proc_wait proc; one; two]
                    /\ extends w w'
                         [ev; EvStart (command_for run path w) None;
                          EvWait (Proc_wait proc);
                          EvReplay Stdout (Proc_stdout proc) one;
                          EvReplay Stderr (Proc_stderr proc) two]
              end
       end.
Proof.
  unfold Run_exec. intros Hexec.
  destruct (if String.eqb (filepath.Base (Run_Path run)) (Run_Path run)
            then _ else _) as [[w1 run1] err1] eqn:Hres.
  assert (exists ev path,
             (if String.eqb (filepath.Base (Run_Path run)) (Run_Path run)
              then ev = EvLookPath (Run_Path run) err1
                   /\ Host_look_path (host w) (Run_Path run) = (path, err1)
              else ev = EvGetwd err1
                   /\ Host_getwd (host w) = err1
                   /\ (err1 = None ->
                       path = filepath.Join [Host_wd (host w); Run_Path run]))
             /\ w1 = log ev w
             /\ run1 = match err1 with
                       | Some _ => run
                       | None => set_Run_Path path run
                       end) as (ev & path & Hev & -> & ->).
  { destruct (String.eqb (filepath.Base (Run_Path run)) (Run_Path run)).
    - unfold exec.LookPath in Hres.
      destruct (Host_look_path (host w) (Run_Path run)) as [path r] eqn:Hlp.
      exists (EvLookPath (Run_Path run) err1), path.
      destruct r; injection Hres as <- <- <-; by repeat split.
    - unfold os.Getwd in Hres.
      destruct (Host_getwd (host w)) as [e |] eqn:Hwd;
        injection Hres as <- <- <-.
      + exists (EvGetwd (Some e)), "". by repeat split.
      + exists (EvGetwd None),
               (filepath.Join [Host_wd (host w); Run_Path run]).
        by repeat split. }
  exists ev, path, err1. split; [exact Hev |].
  destruct err1 as [e1 |].
  - injection Hexec as <- <- <-. repeat split.
  - fold (command_for (set_Run_Path path run) (Run_Path (set_Run_Path path run))
                      (log ev w)) in Hexec.
    change (command_for (set_Run_Path path run)
                        (Run_Path (set_Run_Path path run)) (log ev w))
      with (command_for run path w) in Hexec.
    unfold exec.Start in Hexec. simpl in Hexec.
    destruct (Host_spawn (host w) (command_for run path w)) as [proc | e].
    + unfold exec.Wait in Hexec.
      destruct (os.Replay Stdout _ _) as [w3 one] eqn:H1.
      destruct (os.Replay Stderr _ _) as [w4 two] eqn:H2.
      injection Hexec as <- <- <-. split; [reflexivity |].
      exists one, two. split; [reflexivity |].
      apply Replay_extends in H1, H2.
      pose proof (extends_trans _ _ _ _ _
                    (extends_trans _ _ _ _ _
                       (extends_trans _ _ _ _ _
                          (extends_trans _ _ _ _ _ (extends_log ev w)
                             (extends_log (EvStart (command_for run path w) None)
                                          _))
                          (extends_log (EvWait (Proc_wait proc)) _)) H1) H2)
        as X.
      exact X.
    + injection Hexec as <- <- <-. split; [reflexivity |].
      split; [reflexivity |].
      exact (extends_trans _ _ _ _ _ (extends_log ev w)
               (extends_log (EvStart (command_for run path w) (Some e)) _)).
Qed.


(** In the trace of one [Run], the event of the path resolution is no
    [Start]. *)
Lemma resolution_event_not_start (b : bool) (ev : Event) (p : string)
    (rerr : error) (X Y : Prop) (c : Cmd) (r : error) :
  (if b then ev = EvLookPath p rerr /\ X else ev = EvGetwd rerr /\ Y) ->
  ev <> EvStart c r.
Proof. destruct b; intros [-> _]; discriminate. Qed.





(** A subprocess that exits with status zero while the supervisor's stdout
    is closed: the replay fails and [Run] reports it. *)
Example Run_zero_exit_failed_replay :
  (Run_exec hi_run (world_of mute_host)).2
  = Some (ErrJoin [ErrPath "write" "/dev/stdout" EPIPE]).
Proof. vm_compute. reflexivity. Qed.

(** A non-zero exit and a failed replay are both in the joined error. *)
Example Join_keeps_every_cause :
  errors.Join [Some (ErrExit 3); None; Some (ErrPath "write" "/dev/stderr" EPIPE)]
  = Some (ErrJoin [ErrExit 3; ErrPath "write" "/dev/stderr" EPIPE]).
Proof. reflexivity. Qed.

(** The timeout of the command's context: none unless [timeout] is
    positive, and then [timeout] seconds as long as the product fits
    [int64]. *)
Lemma command_for_timeout (run : Run) (path : string) (w : World) :
  Cmd_Timeout (command_for run path w)
  = if 0 <? Run_Timeout run
    then Some (time.Duration_mul (Run_Timeout run) time.Second)
    else None.
Proof. unfold command_for. by destruct (0 <? Run_Timeout run). Qed.

Lemma Duration_mul_seconds (n : Z) :
  0 < n <= 9223372036 -> time.Duration_mul n time.Second = n * 1000000000.
Proof.
  intros H. unfold time.Duration_mul, time.Second, wrap64.
  rewrite (Z.mod_small (n + 2 ^ 63) (2 ^ 64)) by lia.
  replace (n + 2 ^ 63 - 2 ^ 63) with n by lia.
  rewrite Z.mod_small by lia. lia.
Qed.

Example Duration_mul_wraps :
  time.Duration_mul 9223372037 time.Second = -9223372036709551616.
Proof. reflexivity. Qed.

Lemma element_no_separator (l : list ascii) :
  existsb filepath.IsPathSeparator (filepath.element l).1 = false.
Proof.
  induction l as [| c l IH]; [reflexivity |]. simpl.
  destruct (filepath.IsPathSeparator c) eqn:Hc; [reflexivity |].
  destruct (filepath.element l) as [e r]. simpl in *. by rewrite Hc.
Qed.

Lemma existsb_rev_false {A : Type} (f : A -> bool) (l : list A) :
  existsb f l = false -> existsb f (rev l) = false.
Proof.
  intros H. apply not_true_is_false. intros Ht.
  apply existsb_exists in Ht as (x & Hin & Hx).
  apply in_rev in Hin.
  assert (existsb f l = true) by (apply existsb_exists; eauto). congruence.
Qed.

Lemma Base_self (path : string) :
  filepath.Base path = path -> path = "/" \/ has_separator path = false.
Proof.
  unfold filepath.Base, has_separator. intros H.
  destruct (chars path) as [| c l] eqn:Hp.
  - apply (f_equal chars) in H. rewrite Hp in H. discriminate H.
  - pose proof (element_no_separator
                  (filepath.strip_separators (rev (c :: l)))) as Hno.
    destruct (filepath.element (filepath.strip_separators (rev (c :: l)))).1
      as [| c' l'] eqn:He.
    + by left.
    + right. apply (f_equal chars) in H. rewrite Hp in H.
      unfold chars, text in H.
      rewrite list_ascii_of_string_of_list_ascii in H. rewrite <- H.
      by apply existsb_rev_false.
Qed.

(** C10, as stated, fails: under the working directory [/] the configured
    absolute path [/usr/bin/x] is joined to [/usr/bin/x] and executed as
    itself. *)
Lemma Run_absolute_path_from_root :
  ~ (forall (run : Run) (w w' : World) (run' : Run) (err : error) (c : Cmd)
            (r : error),
       Run_exec run w = (w', run', err) ->
       is_abs (Run_Path run) = true ->
       In (EvStart c r) (events_since w w') ->
       Cmd_Path c <> Run_Path run).
Proof.
  intros H.
  set (w := world_of root_host).
  set (r := Run_exec absolute_run w).
  apply (H absolute_run w r.1.1 r.1.2 r.2
           (command_for absolute_run "/usr/bin/x" w) None (triple_eta r)).
  - reflexivity.
  - vm_compute. right. left. reflexivity.
  - reflexivity.
Qed.

(** C10, amended: for every Run action whose [path] contains a separator and
    is not [/] itself, absolute paths included, when the working directory
    can be read the executor rewrites [path] in place to
    [filepath.Join(workingDirectory, path)] before it starts anything, and
    that is the path of the one command it starts.  (Whether the result
    differs from a configured absolute path depends on the working
    directory.) *)
Theorem Run_path_joined (run : Run) (w w' : World) (run' : Run) (err : error) :
  Run_exec run w = (w', run', err) ->
  has_separator (Run_Path run) = true ->
  Run_Path run <> "/" ->
  Host_getwd (host w) = None ->
  Run_Path run' = filepath.Join [Host_wd (host w); Run_Path run]
  /\ exists c r rest,
       events_since w w' = EvGetwd None :: EvStart c r :: rest
       /\ Cmd_Path c = filepath.Join [Host_wd (host w); Run_Path run]
       /\ forall c' r', In (EvStart c' r') rest -> False.
Proof.
  intros Hexec Hsep Hroot Hwd.
  destruct (Run_exec_inv _ _ _ _ _ Hexec) as (ev & path & rerr & Hev & Hrest).
  destruct (String.eqb_spec (filepath.Base (Run_Path run)) (Run_Path run))
    as [Hbase | Hbase].
  { destruct (Base_self _ Hbase); congruence. }
  destruct Hev as (-> & Hrerr & Hpath).
  rewrite Hwd in Hrerr. subst rerr. specialize (Hpath eq_refl). subst path.
  destruct Hrest as [-> Hrest]. split; [reflexivity |].
  set (c := command_for run _ w) in *.
  assert (Hc : Cmd_Path c = filepath.Join [Host_wd (host w); Run_Path run]).
  { unfold c, command_for. by destruct (0 <? Run_Timeout run). }
  destruct (Host_spawn (host w) c) as [proc | e].
  - destruct Hrest as (one & two & _ & X).
    rewrite (extends_events _ _ _ X).
    eexists _, _, _. split; [reflexivity |]. split; [exact Hc |].
    intros c' r' Hin. event_cases Hin.
  - destruct Hrest as [_ X]. rewrite (extends_events _ _ _ X).
    eexists _, _, _. split; [reflexivity |]. split; [exact Hc |].
    intros c' r' [].
Qed.

(** Parent elements in the configured path climb out of the working
    directory again. *)
Example Join_climbs_out :
  filepath.Join ["/home/deploy"; "/../../usr/bin/x"] = "/usr/bin/x".
Proof. reflexivity. Qed.

Lemma Run_path_joined_witness :
  Run_Path (Run_exec absolute_run sample_world).1.2 = "/work/usr/bin/x".
Proof.
  set (r := Run_exec absolute_run sample_world).
  refine (proj1 (Run_path_joined absolute_run sample_world r.1.1 r.1.2 r.2
                   (triple_eta r) _ _ _)).
  - reflexivity.
  - discriminate.
  - reflexivity.
Defined.

(** *** The file system *)

Lemma inode_not_root (w : World) (p : string) :
  p <> "/" -> inode w p = fs w !! p.
Proof. unfold inode. intros H. by apply String.eqb_neq in H as ->. Qed.

Lemma inode_same_fs (w w' : World) (p : string) :
  fs w' = fs w -> inode w' p = inode w p.
Proof. unfold inode. by intros ->. Qed.

Lemma mkdirs_lookup_file (l : list string) (m : gmap string Inode)
    (p : string) (d : bytes) :
  foldr (fun d m => <[d := IDir]> m) m l !! p = Some (IFile d) ->
  m !! p = Some (IFile d).
Proof.
  induction l as [| a l IH]; simpl; [done |].
  rewrite lookup_insert. case_decide; [discriminate | exact IH].
Qed.

Lemma mkdirs_lookup_other (l : list string) (m : gmap string Inode)
    (p : string) :
  p ∉ l -> foldr (fun d m => <[d := IDir]> m) m l !! p = m !! p.
Proof.
  induction l as [| a l IH]; simpl; [done |].
  intros Hnot. apply not_elem_of_cons in Hnot as [Hne Hnot].
  rewrite lookup_insert_ne by done. by apply IH.
Qed.

(** [MkdirAll] neither creates, nor removes, nor changes a regular file. *)
Lemma MkdirAll_files (path : string) (w w' : World) (r : error) (p : string)
    (d : bytes) :
  os.MkdirAll path w = (w', r) ->
  inode w' p = Some (IFile d) <-> inode w p = Some (IFile d).
Proof.
  unfold os.MkdirAll.
  destruct (String.eqb path ""); [intros [= <- _]; by unfold inode |].
  destruct (existsb (is_file w) (ancestors (resolve w path))) eqn:Hany;
    [intros [= <- _]; by unfold inode |].
  intros [= <- _]. unfold inode. simpl.
  destruct (String.eqb_spec p "/") as [-> | Hp]; [done |]. split.
  - apply mkdirs_lookup_file.
  - intros Hfile. rewrite mkdirs_lookup_other; [done |].
    intros Hin. apply list_elem_of_In in Hin.
    assert (existsb (is_file w) (ancestors (resolve w path)) = true);
      [| congruence].
    apply existsb_exists. exists p. split; [done |].
    unfold is_file. by rewrite inode_not_root, Hfile.
Qed.

Lemma mkdir_step_files (folder : Z) (to : string) (w w2 : World) (err : error)
    (p : string) (d : bytes) :
  (if 0 <? folder then os.MkdirAll (slice_to to folder) w else (w, None))
  = (w2, err) ->
  inode w2 p = Some (IFile d) <-> inode w p = Some (IFile d).
Proof.
  destruct (0 <? folder); [apply MkdirAll_files | by intros [= <- _]].
Qed.

(** A file [Create] returns is empty, and it is the only path that changed. *)
Lemma Create_ok (name : string) (w w' : World) (f : File) :
  os.Create name w = (w', inl f) ->
  File_name f = name /\ File_path f = resolve w name
  /\ File_path f <> "/"
  /\ inode w' (File_path f) = Some (IFile [])
  /\ forall p, p <> File_path f -> inode w' p = inode w p.
Proof.
  unfold os.Create.
  destruct (String.eqb name ""); [intros [= _ H]; discriminate H |].
  destruct (is_dir w (resolve w name)) eqn:Hdir;
    [intros [= _ H]; discriminate H |].
  destruct (is_file w (parent (resolve w name)));
    [intros [= _ H]; discriminate H |].
  destruct (negb (is_dir w (parent (resolve w name))));
    [intros [= _ H]; discriminate H |].
  intros [= <- <-]. simpl.
  assert (Hroot : resolve w name <> "/").
  { intros Heq. rewrite Heq in Hdir. discriminate Hdir. }
  repeat split; [done | |].
  - unfold inode. apply String.eqb_neq in Hroot as ->. simpl.
    apply lookup_insert_eq.
  - intros p Hp. unfold inode. simpl. by rewrite lookup_insert_ne.
Qed.

(** A write that succeeds into an empty file leaves exactly [data] in it. *)
Lemma write_ok (f : File) (data : bytes) (w w' : World) (n : nat) :
  os.write f data w = (w', n, None) ->
  File_path f <> "/" ->
  inode w (File_path f) = Some (IFile []) ->
  inode w' (File_path f) = Some (IFile data)
  /\ forall p, p <> File_path f -> inode w' p = inode w p.
Proof.
  unfold os.write. intros [= <- _ Herr] Hroot Hempty. rewrite Hempty.
  destruct (Nat.ltb_spec (Nat.min (length data) (disk_free w)) (length data))
    as [Hlt | Hge]; [discriminate Herr |].
  assert (Hn : Nat.min (length data) (disk_free w) = length data) by lia.
  rewrite Hn. destruct (Nat.ltb_spec 0 (length data)) as [Hpos | Hzero].
  - split.
    + rewrite inode_not_root by done. simpl.
      rewrite lookup_insert_eq, firstn_all, drop_nil. by rewrite app_nil_r.
    + intros p Hp. unfold inode. simpl. by rewrite lookup_insert_ne.
  - assert (data = []) as -> by (destruct data; [done | simpl in *; lia]).
    by split.
Qed.

Lemma File_ReadFrom_ok (f src : File) (w w' : World) (n : nat) :
  os.ReadFrom f src w = (w', n, None) ->
  File_path f <> "/" ->
  inode w (File_path f) = Some (IFile []) ->
  exists data,
    inode w (File_path src) = Some (IFile data)
    /\ inode w' (File_path f) = Some (IFile data)
    /\ forall p, p <> File_path f -> inode w' p = inode w p.
Proof.
  unfold os.ReadFrom. intros H Hroot Hempty.
  destruct (inode w (File_path src)) as [[data |] |] eqn:Hsrc;
    [| discriminate H | discriminate H].
  destruct (os.write f data w) as [[w1 n1] r1] eqn:Hw.
  injection H as <- <- ->.
  destruct (write_ok _ _ _ _ _ Hw Hroot Hempty) as [Hdst Hother].
  exists data. repeat split; [exact Hdst | exact Hother].
Qed.

(** A rename of a regular file that succeeds, to another path. *)
Lemma Rename_file_ok (oldpath newpath : string) (w w' : World) (data : bytes) :
  os.Rename oldpath newpath w = (w', None) ->
  stat w oldpath = Some (IFile data) ->
  resolve w oldpath <> resolve w newpath ->
  inode w' (resolve w oldpath) = None
  /\ inode w' (resolve w newpath) = Some (IFile data)
  /\ forall p, p <> resolve w oldpath -> p <> resolve w newpath ->
               inode w' p = inode w p.
Proof.
  unfold os.Rename, stat.
  set (o := resolve w oldpath). set (n := resolve w newpath).
  intros H Hsrc Hne.
  destruct (String.eqb oldpath "" || String.eqb newpath "");
    [discriminate H |].
  destruct (String.eqb_spec o "/") as [Ho | Ho]; [discriminate H |].
  destruct (String.eqb_spec n "/") as [Hn | Hn]; [discriminate H |].
  simpl in H. rewrite Hsrc in H.
  destruct (is_file w (parent n)); [discriminate H |].
  destruct (negb (is_dir w (parent n))); [discriminate H |].
  destruct (String.eqb_spec o n) as [Heq | _]; [done |].
  assert (fs w' = <[n := IFile data]> (delete o (fs w))) as Hfs.
  { destruct (inode w n) as [[d |] |]; try discriminate H;
      by injection H as <-. }
  unfold inode. rewrite Hfs.
  apply String.eqb_neq in Ho as Ho', Hn as Hn'. rewrite Ho', Hn'.
  repeat split.
  - rewrite lookup_insert_ne by done. apply lookup_delete_eq.
  - apply lookup_insert_eq.
  - intros p Hpo Hpn. destruct (String.eqb p "/"); [done |].
    rewrite lookup_insert_ne by done. by rewrite lookup_delete_ne.
Qed.

Lemma resolve_host (w w' : World) (name : string) :
  host w' = host w -> resolve w' name = resolve w name.
Proof. unfold resolve. by intros ->. Qed.

Lemma mkdir_step_host (folder : Z) (to : string) (w w2 : World) (err : error) :
  (if 0 <? folder then os.MkdirAll (slice_to to folder) w else (w, None))
  = (w2, err) ->
  host w2 = host w.
Proof.
  intros H. destruct (mkdir_step _ _ _ _ _ H) as [[_ [Hh _]] | (_ & -> & _)];
    done.
Qed.

(** C9: for every Copy action that returns success, the destination is a
    regular file whose contents are those of the source file, all of them:
    the two files hold the same bytes when Copy returns, and these are the
    bytes the source held before whenever the destination is another path
    than the source. *)
Theorem Copy_success_contents (path : string) (copy : Copy) (w w' : World)
    (copy' : Copy) :
  Copy_exec path copy w = (w', copy', None) ->
  exists data,
    stat w' (Copy_To copy') = Some (IFile data)
    /\ stat w' (Copy_From copy) = Some (IFile data)
    /\ (resolve w (Copy_From copy) <> resolve w (Copy_To copy') ->
        stat w (Copy_From copy) = Some (IFile data)).
Proof.
  intros H. unfold Copy_exec in H.
  destruct (os.Open (Copy_From copy) w) as [w1 [source | e]] eqn:Hopen;
    [| discriminate H].
  set (copy1 := if String.eqb (Copy_To copy) "" then _ else copy) in H.
  destruct (if 0 <? strings_LastIndex (Copy_To copy1) "/" then _ else _)
    as [w2 [e2 |]] eqn:Hmk; [discriminate H |].
  destruct (os.Create (Copy_To copy1) w2) as [w3 [target | e3]] eqn:Hcr;
    [| discriminate H].
  rewrite NewWriter_ReadFrom in H.
  destruct (os.ReadFrom target source w3) as [[w4 n] err4] eqn:Hrd.
  injection H as <- <- ->.
  destruct (Open_ok _ _ _ _ Hopen) as (_ & Hsrc & _ & _).
  destruct (Open_extends _ _ _ _ Hopen) as [Hh1 _].
  destruct (Open_fs _ _ _ _ Hopen) as [Hfs1 _].
  pose proof (mkdir_step_host _ _ _ _ _ Hmk) as Hh2.
  destruct (Create_extends _ _ _ _ Hcr) as [Hh3 _].
  destruct (File_ReadFrom_extends _ _ _ _ _ _ Hrd) as [Hh4 _].
  destruct (Create_ok _ _ _ _ Hcr) as (_ & Hdst & Hroot & Hempty & Hother3).
  destruct (File_ReadFrom_ok _ _ _ _ _ Hrd Hroot Hempty)
    as (data & Hread & Hwritten & Hother4).
  assert (Hhost : host w4 = host w) by congruence.
  assert (Hto : resolve w (Copy_To copy1) = File_path target).
  { rewrite Hdst. symmetry. apply resolve_host. congruence. }
  assert (Hfrom : resolve w (Copy_From copy) = File_path source) by done.
  exists data. unfold stat.
  change (inode (os.Close source (os.Close target w4)))
    with (inode w4).
  change (resolve (os.Close source (os.Close target w4)))
    with (resolve w4).
  rewrite !(resolve_host w w4) by done. rewrite Hto, Hfrom.
  split; [exact Hwritten |]. split.
  - destruct (decide (File_path source = File_path target)) as [-> | Hne];
      [exact Hwritten |].
    by rewrite Hother4.
  - intros Hne. rewrite <- (inode_same_fs w w1) by done.
    apply (mkdir_step_files _ _ _ _ _ _ _ Hmk).
    rewrite <- Hother3 by done. exact Hread.
Qed.

Lemma Copy_success_contents_witness :
  exists data,
    stat (Copy_exec "/out" plain_copy sample_world).1.1 "/out/a.txt"
    = Some (IFile data)
    /\ stat (Copy_exec "/out" plain_copy sample_world).1.1 "a.txt"
       = Some (IFile data)
    /\ (resolve sample_world "a.txt" <> resolve sample_world "/out/a.txt" ->
        stat sample_world "a.txt" = Some (IFile data)).
Proof.
  set (r := Copy_exec "/out" plain_copy sample_world).
  refine (Copy_success_contents "/out" plain_copy sample_world r.1.1 r.1.2 _).
  vm_compute. reflexivity.
Defined.

(** The example of the specification: [from = "a.txt"], no [to], deploy
    folder [/out]. *)
Example Copy_a_txt :
  let '(w', copy', err) := Copy_exec "/out" plain_copy sample_world in
  err = None /\ Copy_To copy' = "/out/a.txt"
  /\ stat w' "/out/a.txt" = Some (IFile (contents "hello"))
  /\ stat w' "a.txt" = Some (IFile (contents "hello")).
Proof. vm_compute. repeat split. Qed.

(** Copying a file onto itself succeeds and leaves it empty: [Create]
    truncates it before anything is read. *)
Example Copy_onto_itself :
  let '(w', _, err) :=
    Copy_exec "/out" {| Copy_From := "a.txt"; Copy_To := "./a.txt" |}
              sample_world in
  err = None /\ stat w' "a.txt" = Some (IFile []).
Proof. vm_compute. repeat split. Qed.

(** A device with room for three more bytes: the copy fails and leaves a
    partly written destination. *)
Example Copy_disk_full :
  let '(w', _, err) :=
    Copy_exec "/out" plain_copy (set_disk_free 3 sample_world) in
  err = Some (ErrPath "write" "/out/a.txt" ENOSPC)
  /\ stat w' "/out/a.txt" = Some (IFile (contents "hel")).
Proof. vm_compute. repeat split. Qed.

(** Strings: what [under] and the re-keying of [move_tree] rest on. *)
Lemma append_cons (c : ascii) (a b : string) :
  String c a ++ b = String c (a ++ b).
Proof. reflexivity. Qed.

Lemma append_empty_r (s : string) : s ++ "" = s.
Proof.
  induction s as [| c s IH]; [reflexivity |]. rewrite append_cons. congruence.
Qed.

Lemma append_assoc (a b c : string) : (a ++ b) ++ c = a ++ (b ++ c).
Proof.
  induction a as [| x a IH]; [reflexivity |]. rewrite !append_cons. congruence.
Qed.

Lemma prefix_append (a k : string) :
  String.prefix a k = true -> exists b, k = a ++ b.
Proof.
  revert k. induction a as [| x a IH]; intros k H.
  - by exists k.
  - destruct k as [| y k]; [discriminate H |]. simpl in H.
    destruct (ascii_dec x y) as [-> |]; [| discriminate H].
    destruct (IH _ H) as [b ->]. by exists b.
Qed.

Lemma prefix_of_append (a b : string) : String.prefix a (a ++ b) = true.
Proof.
  induction a as [| x a IH]; [by destruct b |].
  rewrite append_cons. simpl. by destruct (ascii_dec x x).
Qed.

Lemma substring_all (s : string) : String.substring 0 (String.length s) s = s.
Proof. induction s as [| c s IH]; simpl; congruence. Qed.

Lemma substring_after (a b : string) :
  String.substring (String.length a)
                   (String.length (a ++ b) - String.length a) (a ++ b) = b.
Proof.
  induction a as [| x a IH].
  - change ("" ++ b) with b. simpl. rewrite Nat.sub_0_r. apply substring_all.
  - rewrite append_cons. simpl. exact IH.
Qed.

Lemma under_cases (dir p : string) :
  under dir p = true ->
  exists rest, p = dir ++ rest /\ (rest = "" \/ exists r, rest = "/" ++ r).
Proof.
  unfold under. intros H. apply orb_true_iff in H as [H | H].
  - apply String.eqb_eq in H as ->. exists "".
    split; [symmetry; apply append_empty_r | by left].
  - apply prefix_append in H as [b ->]. exists ("/" ++ b).
    split; [apply append_assoc | right; by exists b].
Qed.

(** After a rename that succeeds, to another path, the old path is free:
    this holds for a file and for a directory with everything below it. *)
Lemma Rename_source_gone (oldpath newpath : string) (w w' : World) :
  os.Rename oldpath newpath w = (w', None) ->
  resolve w oldpath <> resolve w newpath ->
  inode w' (resolve w oldpath) = None.
Proof.
  unfold os.Rename.
  set (o := resolve w oldpath). set (n := resolve w newpath).
  intros H Hne.
  destruct (String.eqb oldpath "" || String.eqb newpath "");
    [discriminate H |].
  destruct (String.eqb_spec o "/") as [Ho | Ho]; [discriminate H |].
  destruct (String.eqb_spec n "/") as [Hn | Hn]; [discriminate H |].
  simpl in H.
  destruct (inode w o) as [src |] eqn:Hsrc; [| discriminate H].
  rewrite inode_not_root in Hsrc by done.
  destruct (is_file w (parent n)); [discriminate H |].
  destruct (negb (is_dir w (parent n))); [discriminate H |].
  destruct (String.eqb_spec o n) as [Heq | _]; [done |].
  rewrite inode_not_root by done.
  destruct src as [data |].
  - assert (fs w' = <[n := IFile data]> (delete o (fs w))) as ->.
    { destruct (inode w n) as [[d |] |]; try discriminate H;
        by injection H as <-. }
    rewrite lookup_insert_ne by done. apply lookup_delete_eq.
  - assert (under o n = false /\ has_children w n = false
            /\ fs w' = move_tree o n (fs w)) as (Hun & Hch & ->).
    { destruct (inode w n) as [[d |] |]; try discriminate H;
        destruct (under o n); try discriminate H;
        destruct (has_children w n); try discriminate H;
        by injection H as <-. }
    unfold move_tree. apply lookup_union_None. split.
    + apply not_elem_of_list_to_map_1. intros Hin.
      apply list_elem_of_fmap in Hin as ([k' v'] & Hk & Hin).
      apply list_elem_of_fmap in Hin as ([k v] & Hkv & Hin).
      apply list_elem_of_filter in Hin as [Hunder Hin].
      simpl in *. injection Hkv as -> ->.
      destruct (under_cases _ _ Hunder) as (rest & -> & Hrest).
      rewrite substring_after in Hk.
      destruct Hrest as [-> | [r ->]].
      * rewrite append_empty_r in Hk. congruence.
      * assert (has_children w n = true); [| congruence].
        apply existsb_exists. exists (o, IDir). split.
        -- apply list_elem_of_In, elem_of_map_to_list. exact Hsrc.
        -- simpl. rewrite Hk, <- append_assoc. apply prefix_of_append.
    + apply map_lookup_filter_None. right. intros v _. simpl.
      unfold under. rewrite String.eqb_refl. simpl. discriminate.
Qed.

(** C3, as stated, fails: a Move without [to] under the deploy folder [.]
    renames [a.txt] to [a.txt]; it succeeds and the source path still
    exists. *)
Lemma Move_onto_itself_keeps_source :
  ~ (forall (path : string) (move : Move) (w w' : World) (move' : Move),
       Move_exec path move w = (w', move', None) ->
       stat w' (Move_From move) = None).
Proof.
  intros H.
  set (r := Move_exec "." plain_move sample_world).
  assert (Hgone : stat r.1.1 "a.txt" = None).
  { apply (H "." plain_move sample_world r.1.1 r.1.2).
    vm_compute. reflexivity. }
  vm_compute in Hgone. discriminate Hgone.
Qed.

(** C3, amended: for every Move action that succeeds, the calls made are the
    open, at most one [MkdirAll], one rename from [from] to the (now
    defaulted) [to] and the deferred close of the source handle: nothing is
    created or copied.  When [to] is another path than [from], after success
    the source path no longer exists and, the source being a regular file,
    the destination holds its original bytes and no other file has appeared,
    disappeared or changed.  (A rename of a path to itself succeeds and
    leaves the source where it was.) *)
Theorem Move_renames (path : string) (move : Move) (w w' : World)
    (move' : Move) :
  Move_exec path move w = (w', move', None) ->
  Move_To move'
  = (if String.eqb (Move_To move) "" then filepath.Join [path; Move_From move]
     else Move_To move)
  /\ (exists mk,
        events_since w w'
        = (EvOpen (Move_From move) None
             :: mk ++ [EvRename (Move_From move) (Move_To move') None;
                       EvClose (Move_From move)])%list
        /\ (mk = [] \/ exists d, mk = [EvMkdirAll d None]))
  /\ (resolve w (Move_From move) <> resolve w (Move_To move') ->
      stat w' (Move_From move) = None
      /\ forall data,
           stat w (Move_From move) = Some (IFile data) ->
           stat w' (Move_To move') = Some (IFile data)
           /\ forall p d,
                p <> resolve w (Move_From move) ->
                p <> resolve w (Move_To move') ->
                inode w' p = Some (IFile d) <-> inode w p = Some (IFile d)).
Proof.
  intros H. unfold Move_exec in H.
  destruct (os.Open (Move_From move) w) as [w1 [source | e]] eqn:Hopen;
    [| discriminate H].
  destruct (if 0 <? strings_LastIndex (Move_To move) "/" then _ else _)
    as [w2 [e2 |]] eqn:Hmk; [discriminate H |].
  destruct (Open_ok _ _ _ _ Hopen) as (Hname & _ & _ & _).
  unfold os.Name in H. rewrite Hname in H.
  set (move1 := if String.eqb (Move_To move) "" then _ else move) in H.
  assert (Hfrom1 : Move_From move1 = Move_From move).
  { unfold move1. by destruct (String.eqb (Move_To move) ""). }
  rewrite Hfrom1 in H.
  destruct (os.Rename (Move_From move) (Move_To move1) w2)
    as [w3 err3] eqn:Hren.
  injection H as <- <- ->.
  pose proof (Open_extends _ _ _ _ Hopen) as X1.
  destruct (Open_fs _ _ _ _ Hopen) as [Hfs1 _].
  pose proof (mkdir_step_host _ _ _ _ _ Hmk) as Hh2.
  assert (Hhost : host w2 = host w) by (destruct X1; congruence).
  split; [| split].
  - unfold move1. by destruct (String.eqb (Move_To move) "").
  - assert (exists mk, extends w1 w2 mk
                       /\ (mk = [] \/ exists d, mk = [EvMkdirAll d None]))
      as (mk & X2 & Hmk').
    { destruct (mkdir_step _ _ _ _ _ Hmk) as [[_ X] | (_ & -> & _)].
      - eexists. split; [exact X | right; by eexists].
      - exists []. split; [apply extends_refl | by left]. }
    exists mk. split; [| exact Hmk'].
    rewrite (extends_events _ _ _
               (extends_trans _ _ _ _ _
                  (extends_trans _ _ _ _ _
                     (extends_trans _ _ _ _ _ X1 X2)
                     (Rename_extends _ _ _ _ _ Hren))
                  (Close_extends source w3))).
    rewrite Hname. simpl. by rewrite <- app_assoc.
  - intros Hne. unfold stat.
    change (inode (os.Close source w3)) with (inode w3).
    change (resolve (os.Close source w3)) with (resolve w3).
    destruct (Rename_extends _ _ _ _ _ Hren) as [Hh3 _].
    rewrite !(resolve_host w w3) by congruence.
    rewrite <- !(resolve_host w w2) in * by done.
    split; [by apply (Rename_source_gone _ _ _ _ Hren) |].
    intros data Hdata.
    assert (Hdata2 : stat w2 (Move_From move) = Some (IFile data)).
    { unfold stat. apply (mkdir_step_files _ _ _ _ _ _ _ Hmk).
      by rewrite (inode_same_fs w w1). }
    destruct (Rename_file_ok _ _ _ _ _ Hren Hdata2 Hne)
      as (_ & Hdst & Hother).
    split; [exact Hdst |].
    intros p d Hp1 Hp2. rewrite (Hother p Hp1 Hp2).
    rewrite (mkdir_step_files _ _ _ _ _ p d Hmk).
    by rewrite (inode_same_fs w w1).
Qed.

Lemma Move_renames_witness :
  stat (Move_exec "/out" moved_to_c sample_world).1.1 "a.txt" = None
  /\ stat (Move_exec "/out" moved_to_c sample_world).1.1 "b/c.txt"
     = Some (IFile (contents "hello")).
Proof.
  set (r := Move_exec "/out" moved_to_c sample_world).
  assert (Hok : r = (r.1.1, r.1.2, None)) by (vm_compute; reflexivity).
  destruct (Move_renames "/out" moved_to_c sample_world r.1.1 r.1.2 Hok)
    as (Hto & _ & Hfs).
  assert (Hto' : Move_To r.1.2 = "b/c.txt") by exact Hto.
  rewrite Hto' in Hfs.
  destruct Hfs as [Hgone Hdata]; [vm_compute; discriminate |].
  split; [exact Hgone |].
  destruct (Hdata (contents "hello")) as [Hdst _]; [reflexivity |].
  exact Hdst.
Defined.

(** The example of the specification: [from = "a.txt"], [to = "b/c.txt"]. *)
Example Move_a_txt :
  let '(w', _, err) := Move_exec "/out" moved_to_c sample_world in
  err = None /\ stat w' "b" = Some IDir /\ stat w' "a.txt" = None
  /\ stat w' "b/c.txt" = Some (IFile (contents "hello")).
Proof. vm_compute. repeat split. Qed.

(** A directory moves with what is below it. *)
Example Move_directory :
  let '(w', _, err) :=
    Move_exec "/out" {| Move_From := "dir"; Move_To := "/out/d2" |}
              sample_world in
  err = None /\ stat w' "dir" = None /\ stat w' "dir/a.txt" = None
  /\ stat w' "/out/d2" = Some IDir
  /\ stat w' "/out/d2/a.txt" = Some (IFile (contents "nested")).
Proof. vm_compute. repeat split. Qed.

(** ** Further properties of action.go *)

(** *** UnmarshalYAML *)

Lemma omap_scalar_values (l : list string) :
  omap (fun i => match i with
                 | NNull => Some ""
                 | NScalar v _ => Some v
                 | _ => None
                 end) (map scalar l) = l.
Proof. induction l as [| x l IH]; [done |]. cbn. by f_equal. Qed.

Lemma omap_scalar_errors (l : list string) :
  omap (fun i => match i with
                 | NNull | NScalar _ _ => None
                 | _ => Some "cannot unmarshal into string"
                 end) (map scalar l) = [].
Proof. induction l as [| x l IH]; [done |]. cbn. exact IH. Qed.



(** X2: when [UnmarshalYAML] returns nil, the header decoded, its [type] is
    copy, move or run, and the Action's payload is the struct of that type
    decoded from the same node into a fresh zero value (whatever payload the
    Action held before is gone); the continuation is as it was.  So
    [Process] never takes its default case on an Action that decoded. *)
Theorem UnmarshalYAML_success {Do : Type} (value : Node)
    (action action' : Action Do) :
  Action_UnmarshalYAML value action = (action', None) ->
  exists t,
    yaml.Decode_ActionType value new_ActionType = (t, None)
    /\ Action_Name action' = display_name (ActionType_Type t) (ActionType_Name t)
    /\ Action_Follow action' = ActionType_Follow t
    /\ Action_Next action' = Action_Next action
    /\ ((ActionType_Type t = "copy"
         /\ exists copy, yaml.Decode_Copy value new_Copy = (copy, None)
                         /\ Action_Data action' = DataCopy copy)
        \/ (ActionType_Type t = "move"
            /\ exists move, yaml.Decode_Move value new_Move = (move, None)
                            /\ Action_Data action' = DataMove move)
        \/ (ActionType_Type t = "run"
            /\ exists run, yaml.Decode_Run value new_Run = (run, None)
                           /\ Action_Data action' = DataRun run)).
Proof.
  unfold Action_UnmarshalYAML, display_name. intros H.
  destruct (yaml.Decode_ActionType value new_ActionType) as [t [e |]];
    [discriminate H |].
  exists t. split; [reflexivity |].
  destruct (String.eqb_spec (ActionType_Type t) "copy") as [Hcopy | _];
    [| destruct (String.eqb_spec (ActionType_Type t) "move") as [Hmove | _];
       [| destruct (String.eqb_spec (ActionType_Type t) "run") as [Hrun | _];
          [| discriminate H]]];
    simpl in H.
  - destruct (yaml.Decode_Copy value new_Copy) as [copy err] eqn:Hc.
    injection H as <- ->.
    destruct (String.eqb (ActionType_Name t) ""); simpl;
      (repeat split; left; split; [done |]; by exists copy).
  - destruct (yaml.Decode_Move value new_Move) as [move err] eqn:Hm.
    injection H as <- ->.
    destruct (String.eqb (ActionType_Name t) ""); simpl;
      (repeat split; right; left; split; [done |]; by exists move).
  - destruct (yaml.Decode_Run value new_Run) as [run err] eqn:Hr.
    injection H as <- ->.
    destruct (String.eqb (ActionType_Name t) ""); simpl;
      (repeat split; right; right; split; [done |]; by exists run).
Qed.

Lemma UnmarshalYAML_success_witness :
  exists t,
    yaml.Decode_ActionType (Copy_record "" "next" plain_copy) new_ActionType
    = (t, None)
    /\ Action_Name (Action_UnmarshalYAML (Copy_record "" "next" plain_copy)
                                         zero_Action).1
       = display_name (ActionType_Type t) (ActionType_Name t)
    /\ Action_Follow (Action_UnmarshalYAML (Copy_record "" "next" plain_copy)
                                           zero_Action).1
       = ActionType_Follow t
    /\ Action_Next (Action_UnmarshalYAML (Copy_record "" "next" plain_copy)
                                         zero_Action).1
       = Action_Next zero_Action
    /\ ((ActionType_Type t = "copy"
         /\ exists copy,
              yaml.Decode_Copy (Copy_record "" "next" plain_copy) new_Copy
              = (copy, None)
              /\ Action_Data (Action_UnmarshalYAML
                                (Copy_record "" "next" plain_copy)
                                zero_Action).1
                 = DataCopy copy)
        \/ (ActionType_Type t = "move"
            /\ exists move,
                 yaml.Decode_Move (Copy_record "" "next" plain_copy) new_Move
                 = (move, None)
                 /\ Action_Data (Action_UnmarshalYAML
                                   (Copy_record "" "next" plain_copy)
                                   zero_Action).1
                    = DataMove move)
        \/ (ActionType_Type t = "run"
            /\ exists run,
                 yaml.Decode_Run (Copy_record "" "next" plain_copy) new_Run
                 = (run, None)
                 /\ Action_Data (Action_UnmarshalYAML
                                   (Copy_record "" "next" plain_copy)
                                   zero_Action).1
                    = DataRun run)).
Proof.
  apply (UnmarshalYAML_success (Copy_record "" "next" plain_copy) zero_Action).
  reflexivity.
Defined.

(** X3: a copy or a move record written with the keys [type], [name],
    [follow], [from] and [to] decodes to the struct it was written from,
    under the display name of the record, with the record's [follow]; an
    empty [from] or [to] comes back empty, and nothing is checked beyond
    that. *)
Theorem UnmarshalYAML_Copy_Move_record {Do : Type} (name follow : string)
    (copy : Copy) (move : Move) (action : Action Do) :
  Action_UnmarshalYAML (Copy_record name follow copy) action
  = ({| Action_Name := display_name "copy" name; Action_Follow := follow;
        Action_Data := DataCopy copy; Action_Next := Action_Next action |},
     None)
  /\ Action_UnmarshalYAML (Move_record name follow move) action
     = ({| Action_Name := display_name "move" name; Action_Follow := follow;
           Action_Data := DataMove move; Action_Next := Action_Next action |},
        None).
Proof.
  unfold Action_UnmarshalYAML, display_name. destruct copy, move. cbn.
  by destruct (String.eqb name "").
Qed.

(** X4: a run record written with the keys [type], [name], [follow], [path],
    [timeout], [Environment] and [Query] decodes to the struct it was written
    from, list order kept, provided the timeout fits Go's [int]. *)
Theorem UnmarshalYAML_Run_record {Do : Type} (name follow : string) (run : Run)
    (timeout : string) (action : Action Do) :
  - 2 ^ 63 <= Run_Timeout run < 2 ^ 63 ->
  Action_UnmarshalYAML (Run_record name follow run timeout) action
  = ({| Action_Name := display_name "run" name; Action_Follow := follow;
        Action_Data := DataRun run; Action_Next := Action_Next action |},
     None).
Proof.
  intros Hfit.
  unfold Action_UnmarshalYAML, display_name. destruct run as [p t env q].
  simpl in Hfit. cbn.
  destruct (Z.leb_spec (- 2 ^ 63) t) as [_ | Hlo]; [| lia].
  destruct (Z.ltb_spec t (2 ^ 63)) as [_ | Hhi]; [| lia].
  cbn. rewrite !omap_scalar_values, !omap_scalar_errors. cbn.
  by destruct (String.eqb name "").
Qed.

Lemma UnmarshalYAML_Run_record_witness :
  Action_UnmarshalYAML (Run_record "greet" "next" hi_run "0") zero_Action
  = ({| Action_Name := display_name "run" "greet"; Action_Follow := "next";
        Action_Data := DataRun hi_run; Action_Next := Action_Next zero_Action |},
     None).
Proof.
  apply (UnmarshalYAML_Run_record "greet" "next" hi_run "0" zero_Action).
  simpl. lia.
Defined.



(** *** What the executors leave of the payload *)

Lemma Copy_exec_settings (path : string) (copy : Copy) (w : World) :
  same_settings (DataCopy copy) (DataCopy (Copy_exec path copy w).1.2).
Proof.
  unfold Copy_exec, same_settings.
  destruct (os.Open (Copy_From copy) w) as [w1 [source | e]]; [| done].
  set (copy1 := if String.eqb (Copy_To copy) "" then _ else copy).
  assert (Copy_From copy1 = Copy_From copy
          /\ (Copy_To copy <> "" -> Copy_To copy1 = Copy_To copy)) as Hkeep.
  { unfold copy1. destruct (String.eqb_spec (Copy_To copy) ""); by split. }
  destruct (if 0 <? strings_LastIndex (Copy_To copy1) "/" then _ else _)
    as [w2 [e2 |]]; [done |].
  destruct (os.Create (Copy_To copy1) w2) as [w3 [target | e3]]; [| done].
  by destruct (bufio.ReadFrom _ source w3) as [[[w4 b] n] err4].
Qed.

Lemma Move_exec_settings (path : string) (move : Move) (w : World) :
  same_settings (DataMove move) (DataMove (Move_exec path move w).1.2).
Proof.
  unfold Move_exec, same_settings.
  destruct (os.Open (Move_From move) w) as [w1 [source | e]]; [| done].
  destruct (if 0 <? strings_LastIndex (Move_To move) "/" then _ else _)
    as [w2 [e2 |]]; [done |].
  set (move1 := if String.eqb (Move_To move) "" then _ else move).
  assert (Move_From move1 = Move_From move
          /\ (Move_To move <> "" -> Move_To move1 = Move_To move)) as Hkeep.
  { unfold move1. destruct (String.eqb_spec (Move_To move) ""); by split. }
  by destruct (os.Rename (Move_From move1) (Move_To move1) w2) as [w3 err3].
Qed.

Lemma Run_exec_settings (run : Run) (w : World) :
  same_settings (DataRun run) (DataRun (Run_exec run w).1.2).
Proof.
  destruct (Run_exec run w) as [[w' run'] err] eqn:Hexec. simpl.
  destruct (Run_exec_inv _ _ _ _ _ Hexec) as (ev & path & rerr & _ & Hrest).
  destruct rerr as [e |].
  - by destruct Hrest as (-> & _ & _).
  - by destruct Hrest as [-> _].
Qed.

(** X6: [Process] always returns, and it leaves the Action's name and
    follow, the kind of its payload, the source of a copy or a move, a
    destination that was configured, and the timeout, environment and query
    of a run as they were: the executors write to an empty [to] and to
    [path] only.  On a payload that is none of the three it calls nothing
    and reports "unknown action type". *)
Theorem Process_frame {Do : Type} (deploy : Deploy) (action : Action Do)
    (w : World) :
  exists w' action' result,
    Deploy_Process deploy action w = Some (w', action', result)
    /\ Action_Name action' = Action_Name action
    /\ Action_Follow action' = Action_Follow action
    /\ same_settings (Action_Data action) (Action_Data action')
    /\ (Action_Data action = DataNil ->
        w' = w /\ action' = action
        /\ Result_Error result = errors.New "unknown action type").
Proof.
  unfold Deploy_Process, Action_Copy, Action_Move, Action_Run.
  destruct (Action_Data action) as [| copy | move | run] eqn:Hdata; simpl.
  - do 3 eexists. split; [reflexivity |]. by rewrite Hdata.
  - pose proof (Copy_exec_settings (Deploy_Folder deploy) copy w) as Hkeep.
    destruct (Copy_exec _ copy w) as [[w' copy'] err]. simpl.
    do 3 eexists. repeat split; try apply Hkeep; done.
  - pose proof (Move_exec_settings (Deploy_Folder deploy) move w) as Hkeep.
    destruct (Move_exec _ move w) as [[w' move'] err]. simpl.
    do 3 eexists. repeat split; try apply Hkeep; done.
  - pose proof (Run_exec_settings run w) as Hkeep.
    destruct (Run_exec run w) as [[w' run'] err]. simpl.
    do 3 eexists. repeat split; try apply Hkeep; done.
Qed.

(** *** Copy and Move: a missing source, and the deploy folder *)




(** X8: the deploy folder matters only when [to] is omitted: a Copy or a
    Move with a configured [to] does the same under every deploy folder. *)
Theorem Copy_Move_folder_unused (path path' : string) (copy : Copy)
    (move : Move) (w : World) :
  (Copy_To copy <> "" -> Copy_exec path copy w = Copy_exec path' copy w)
  /\ (Move_To move <> "" -> Move_exec path move w = Move_exec path' move w).
Proof.
  split; intros Hto; apply String.eqb_neq in Hto.
  - unfold Copy_exec.
    destruct (os.Open (Copy_From copy) w) as [w1 [source | e]]; [| done].
    by rewrite Hto.
  - unfold Move_exec.
    destruct (os.Open (Move_From move) w) as [w1 [source | e]]; [| done].
    by rewrite Hto.
Qed.

Lemma Copy_Move_folder_unused_witness :
  Copy_exec "/out" {| Copy_From := "a.txt"; Copy_To := "b/c.txt" |} sample_world
  = Copy_exec "/srv" {| Copy_From := "a.txt"; Copy_To := "b/c.txt" |}
              sample_world
  /\ Move_exec "/out" moved_to_c sample_world
     = Move_exec "/srv" moved_to_c sample_world.
Proof.
  destruct (Copy_Move_folder_unused
              "/out" "/srv" {| Copy_From := "a.txt"; Copy_To := "b/c.txt" |}
              moved_to_c sample_world) as [Hcopy Hmove].
  split; [apply Hcopy | apply Hmove]; discriminate.
Defined.

(** *** Copy: what it touches *)

Lemma Create_frame (name : string) (w w' : World) (r : File + Err) (p : string) :
  os.Create name w = (w', r) ->
  p <> resolve w name ->
  inode w' p = inode w p.
Proof.
  unfold os.Create.
  destruct (if String.eqb name "" then _ else _) as [m r'] eqn:Hm.
  intros [= <- <-] Hp. unfold inode. simpl.
  destruct (String.eqb p "/"); [done |].
  destruct (String.eqb name ""); [by injection Hm as <- _ |].
  destruct (is_dir w (resolve w name)); [by injection Hm as <- _ |].
  destruct (is_file w (parent (resolve w name))); [by injection Hm as <- _ |].
  destruct (negb (is_dir w (parent (resolve w name))));
    [by injection Hm as <- _ |].
  injection Hm as <- _. by rewrite lookup_insert_ne.
Qed.

Lemma Create_disk_free (name : string) (w w' : World) (r : File + Err) :
  os.Create name w = (w', r) -> disk_free w' = disk_free w.
Proof.
  unfold os.Create.
  destruct (if String.eqb name "" then _ else _) as [m r'].
  by intros [= <- <-].
Qed.

Lemma MkdirAll_disk_free (path : string) (w w' : World) (r : error) :
  os.MkdirAll path w = (w', r) -> disk_free w' = disk_free w.
Proof.
  unfold os.MkdirAll.
  destruct (if String.eqb path "" then _ else _) as [m r'].
  by intros [= <- <-].
Qed.

Lemma mkdir_step_disk_free (folder : Z) (to : string) (w w2 : World)
    (err : error) :
  (if 0 <? folder then os.MkdirAll (slice_to to folder) w else (w, None))
  = (w2, err) ->
  disk_free w2 = disk_free w.
Proof.
  destruct (0 <? folder); [apply MkdirAll_disk_free | by intros [= <- _]].
Qed.

Lemma write_frame (f : File) (data : bytes) (w w' : World) (n : nat)
    (r : error) (p : string) :
  os.write f data w = (w', n, r) ->
  p <> File_path f ->
  inode w' p = inode w p.
Proof.
  unfold os.write. intros [= <- _ _] Hp.
  destruct (0 <? _)%nat; [| done].
  unfold inode. simpl. by rewrite lookup_insert_ne.
Qed.

Lemma File_ReadFrom_frame (f src : File) (w w' : World) (n : nat) (r : error)
    (p : string) :
  os.ReadFrom f src w = (w', n, r) ->
  p <> File_path f ->
  inode w' p = inode w p.
Proof.
  unfold os.ReadFrom. intros H Hp.
  destruct (inode w (File_path src)) as [[data |] |] eqn:Hsrc.
  - destruct (os.write f data w) as [[w1 n1] r1] eqn:Hw.
    injection H as <- _ _. by apply (write_frame _ _ _ _ _ _ _ Hw).
  - by injection H as <- _ _.
  - by injection H as <- _ _.
Qed.

(** X9: whatever a Copy returns, the path of its destination is the only one
    where a regular file can have appeared, gone or changed: every other
    path, the source included, holds the regular file it held before, or
    none as before. *)
Theorem Copy_frame (path : string) (copy : Copy) (w w' : World) (copy' : Copy)
    (err : error) (p : string) (d : bytes) :
  Copy_exec path copy w = (w', copy', err) ->
  p <> resolve w (Copy_To copy') ->
  inode w' p = Some (IFile d) <-> inode w p = Some (IFile d).
Proof.
  unfold Copy_exec. intros H Hp.
  destruct (os.Open (Copy_From copy) w) as [w1 [source | e]] eqn:Hopen;
    destruct (Open_fs _ _ _ _ Hopen) as [Hfs1 _];
    [| injection H as <- _ _; by rewrite (inode_same_fs w w1)].
  destruct (Open_extends _ _ _ _ Hopen) as [Hh1 _].
  set (copy1 := if String.eqb (Copy_To copy) "" then _ else copy) in H.
  destruct (if 0 <? strings_LastIndex (Copy_To copy1) "/" then _ else _)
    as [w2 err2] eqn:Hmk.
  pose proof (mkdir_step_host _ _ _ _ _ Hmk) as Hh2.
  assert (Hw2 : inode w2 p = Some (IFile d) <-> inode w p = Some (IFile d)).
  { rewrite (mkdir_step_files _ _ _ _ _ p d Hmk).
    by rewrite (inode_same_fs w w1). }
  destruct err2 as [e2 |]; [by injection H as <- _ _ |].
  destruct (os.Create (Copy_To copy1) w2) as [w3 [target | e3]] eqn:Hcr.
  - rewrite NewWriter_ReadFrom in H.
    destruct (os.ReadFrom target source w3) as [[w4 n] err4] eqn:Hrd.
    injection H as <- <- _.
    destruct (Create_ok _ _ _ _ Hcr) as (_ & Hdst & _).
    assert (Hp2 : p <> resolve w2 (Copy_To copy1)).
    { rewrite (resolve_host w w2) by congruence. exact Hp. }
    change (inode (os.Close source (os.Close target w4))) with (inode w4).
    rewrite (File_ReadFrom_frame _ _ _ _ _ _ p Hrd) by congruence.
    by rewrite (Create_frame _ _ _ _ p Hcr Hp2).
  - injection H as <- <- _.
    assert (Hp2 : p <> resolve w2 (Copy_To copy1)).
    { rewrite (resolve_host w w2) by congruence. exact Hp. }
    change (inode (os.Close source w3)) with (inode w3).
    by rewrite (Create_frame _ _ _ _ p Hcr Hp2).
Qed.

Lemma Copy_frame_witness :
  inode (Copy_exec "/out" plain_copy sample_world).1.1 "/work/a.txt"
  = Some (IFile (contents "hello"))
  <-> inode sample_world "/work/a.txt" = Some (IFile (contents "hello")).
Proof.
  set (r := Copy_exec "/out" plain_copy sample_world).
  refine (Copy_frame "/out" plain_copy sample_world r.1.1 r.1.2 r.2
            "/work/a.txt" (contents "hello") (triple_eta r) _).
  vm_compute. discriminate.
Defined.

Lemma take_min_length {A : Type} (l : list A) (n : nat) :
  take (Nat.min (length l) n) l = take n l.
Proof.
  destruct (Nat.le_ge_cases n (length l)) as [Hle | Hge].
  - by rewrite Nat.min_r.
  - rewrite Nat.min_l by done. rewrite firstn_all. symmetry. by apply take_ge.
Qed.

(** A transfer into an empty file leaves in it what the device had room
    for, and fails exactly when that is not everything. *)
Lemma File_ReadFrom_dst (f src : File) (w w' : World) (n : nat) (r : error) :
  os.ReadFrom f src w = (w', n, r) ->
  File_path f <> "/" ->
  inode w (File_path f) = Some (IFile []) ->
  exists d,
    inode w' (File_path f) = Some (IFile d)
    /\ forall data,
         inode w (File_path src) = Some (IFile data) ->
         d = take (disk_free w) data
         /\ (r = None <-> (length data <= disk_free w)%nat).
Proof.
  unfold os.ReadFrom. intros H Hroot Hempty.
  destruct (inode w (File_path src)) as [[data |] |] eqn:Hsrc.
  - destruct (os.write f data w) as [[w1 n1] r1] eqn:Hw.
    injection H as <- _ <-. unfold os.write in Hw. rewrite Hempty in Hw.
    injection Hw as <- _ <-.
    exists (take (disk_free w) data). split.
    + destruct (Nat.ltb_spec 0 (Nat.min (length data) (disk_free w)))
        as [Hpos | Hzero].
      * rewrite inode_not_root by done. simpl.
        rewrite lookup_insert_eq, drop_nil, app_nil_r.
        by rewrite take_min_length.
      * change (inode (log _ w)) with (inode w). rewrite Hempty.
        rewrite <- take_min_length.
        by replace (Nat.min (length data) (disk_free w)) with 0%nat by lia.
    + intros data' [= <-]. split; [reflexivity |].
      destruct (Nat.ltb_spec (Nat.min (length data) (disk_free w))
                             (length data)); split; (discriminate || lia || done).
  - injection H as <- _ _. exists []. split; [exact Hempty | discriminate].
  - injection H as <- _ _. exists []. split; [exact Hempty | discriminate].
Qed.

(** X10: once a Copy has created its destination it never removes it: the
    destination stays a regular file whatever Copy returns.  With a regular
    source file at another path, the destination holds the first bytes of
    the source, as many as the device had room for, and Copy returns nil
    exactly when that is all of them. *)
Theorem Copy_created_destination (path : string) (copy : Copy) (w w' : World)
    (copy' : Copy) (err : error) (name : string) :
  Copy_exec path copy w = (w', copy', err) ->
  In (EvCreate name None) (events_since w w') ->
  name = Copy_To copy'
  /\ exists d,
       stat w' (Copy_To copy') = Some (IFile d)
       /\ forall data,
            stat w (Copy_From copy) = Some (IFile data) ->
            resolve w (Copy_From copy) <> resolve w (Copy_To copy') ->
            d = take (disk_free w) data
            /\ (err = None <-> (length data <= disk_free w)%nat).
Proof.
  unfold Copy_exec. intros H Hin.
  destruct (os.Open (Copy_From copy) w) as [w1 [source | e]] eqn:Hopen.
  2: { injection H as <- _ _.
       rewrite (extends_events _ _ _ (Open_extends _ _ _ _ Hopen)) in Hin.
       event_cases Hin. }
  pose proof (Open_extends _ _ _ _ Hopen) as X1.
  destruct (Open_fs _ _ _ _ Hopen) as [Hfs1 Hfree1].
  destruct (Open_ok _ _ _ _ Hopen) as (_ & Hsrc & _ & _).
  set (copy1 := if String.eqb (Copy_To copy) "" then _ else copy) in H.
  destruct (if 0 <? strings_LastIndex (Copy_To copy1) "/" then _ else _)
    as [w2 err2] eqn:Hmk.
  assert (exists evs, extends w1 w2 evs
                      /\ forall nm r, ~ In (EvCreate nm r) evs)
    as (evs & X2 & Hevs).
  { destruct (mkdir_step _ _ _ _ _ Hmk) as [[_ X] | (_ & -> & _)].
    - eexists. split; [exact X |]. intros nm r Hin'. event_cases Hin'.
    - exists []. split; [apply extends_refl | intros ? ? []]. }
  pose proof (extends_trans _ _ _ _ _ X1 X2) as X.
  destruct err2 as [e2 |].
  { injection H as <- _ _.
    rewrite (extends_events _ _ _
               (extends_trans _ _ _ _ _ X (Close_extends source w2))) in Hin.
    event_cases Hin. by apply Hevs in Hin. }
  destruct (os.Create (Copy_To copy1) w2) as [w3 [target | e3]] eqn:Hcr.
  2: { injection H as <- _ _.
       rewrite (extends_events _ _ _
                  (extends_trans _ _ _ _ _
                     (extends_trans _ _ _ _ _ X (Create_extends _ _ _ _ Hcr))
                     (Close_extends source _))) in Hin.
       event_cases Hin. by apply Hevs in Hin. }
  rewrite NewWriter_ReadFrom in H.
  destruct (os.ReadFrom target source w3) as [[w4 n] err4] eqn:Hrd.
  injection H as <- <- <-.
  rewrite (extends_events _ _ _
             (extends_trans _ _ _ _ _
                (extends_trans _ _ _ _ _
                   (extends_trans _ _ _ _ _
                      (extends_trans _ _ _ _ _ X (Create_extends _ _ _ _ Hcr))
                      (File_ReadFrom_extends _ _ _ _ _ _ Hrd))
                   (Close_extends target w4))
                (Close_extends source _))) in Hin.
  split.
  { event_cases Hin; [by apply Hevs in Hin | by injection Hin as <-]. }
  destruct (Create_ok _ _ _ _ Hcr) as (_ & Hdst & Hroot & Hempty & Hother3).
  destruct (File_ReadFrom_dst _ _ _ _ _ _ Hrd Hroot Hempty)
    as (d & Hd & Hdata).
  destruct X as [Hh2 _].
  destruct (Create_extends _ _ _ _ Hcr) as [Hh3 _].
  destruct (File_ReadFrom_extends _ _ _ _ _ _ Hrd) as [Hh4 _].
  assert (Hto : resolve w (Copy_To copy1) = File_path target).
  { rewrite Hdst. symmetry. by apply resolve_host. }
  exists d. unfold stat.
  change (inode (os.Close source (os.Close target w4))) with (inode w4).
  change (resolve (os.Close source (os.Close target w4))) with (resolve w4).
  rewrite (resolve_host w w4) by congruence. rewrite Hto.
  split; [exact Hd |].
  intros data Hfile Hne.
  rewrite <- Hfree1, <- (mkdir_step_disk_free _ _ _ _ _ Hmk).
  rewrite <- (Create_disk_free _ _ _ _ Hcr).
  apply Hdata. rewrite Hsrc. rewrite Hother3 by congruence.
  apply (mkdir_step_files _ _ _ _ _ _ _ Hmk).
  by rewrite (inode_same_fs w w1).
Qed.

Lemma Copy_created_destination_witness :
  "/out/a.txt" = Copy_To (Copy_exec "/out" plain_copy
                            (set_disk_free 3 sample_world)).1.2
  /\ exists d,
       stat (Copy_exec "/out" plain_copy (set_disk_free 3 sample_world)).1.1
            (Copy_To (Copy_exec "/out" plain_copy
                        (set_disk_free 3 sample_world)).1.2)
       = Some (IFile d)
       /\ forall data,
            stat (set_disk_free 3 sample_world) "a.txt" = Some (IFile data) ->
            resolve (set_disk_free 3 sample_world) "a.txt"
            <> resolve (set_disk_free 3 sample_world)
                       (Copy_To (Copy_exec "/out" plain_copy
                                   (set_disk_free 3 sample_world)).1.2) ->
            d = take 3 data
            /\ ((Copy_exec "/out" plain_copy (set_disk_free 3 sample_world)).2
                = None <-> (length data <= 3)%nat).
Proof.
  set (w := set_disk_free 3 sample_world).
  set (r := Copy_exec "/out" plain_copy w).
  apply (Copy_created_destination "/out" plain_copy w r.1.1 r.1.2 r.2
           "/out/a.txt" (triple_eta r)).
  vm_compute. right. right. left. reflexivity.
Defined.

(** X11: where Copy creates directories.  Once the source is open, Copy
    calls [MkdirAll] exactly when the last separator of the destination (the
    defaulted one, if [to] was omitted) lies past its first byte, on the
    part of the destination before that separator, straight after the open;
    if that fails Copy returns its error and creates nothing.  With no
    separator, or the only one in front ([/a.txt]), it creates no
    directory. *)
Theorem Copy_mkdir_rule (path : string) (copy : Copy) (w w1 w' : World)
    (source : File) (copy' : Copy) (err : error) :
  os.Open (Copy_From copy) w = (w1, inl source) ->
  Copy_exec path copy w = (w', copy', err) ->
  (strings_LastIndex (Copy_To copy') "/" <= 0 ->
   forall d r, ~ In (EvMkdirAll d r) (events_since w w'))
  /\ (0 < strings_LastIndex (Copy_To copy') "/" ->
      exists r rest,
        events_since w w'
        = EvOpen (Copy_From copy) None
            :: EvMkdirAll (slice_to (Copy_To copy')
                                    (strings_LastIndex (Copy_To copy') "/")) r
            :: rest
        /\ (forall d' r', ~ In (EvMkdirAll d' r') rest)
        /\ (r <> None ->
            err = r /\ rest = [EvClose (Copy_From copy)])).
Proof.
  intros Hopen H. unfold Copy_exec in H. rewrite Hopen in H.
  destruct (Open_ok _ _ _ _ Hopen) as (Hname & _ & _ & _).
  pose proof (Open_extends _ _ _ _ Hopen) as X1. simpl in X1.
  set (copy1 := if String.eqb (Copy_To copy) "" then _ else copy) in H.
  destruct (if 0 <? strings_LastIndex (Copy_To copy1) "/" then _ else _)
    as [w2 err2] eqn:Hmk.
  assert (exists rest,
             copy' = copy1
             /\ extends w2 w' rest
             /\ (forall d r, ~ In (EvMkdirAll d r) rest)
             /\ (err2 <> None ->
                 err = err2 /\ rest = [EvClose (Copy_From copy)]))
    as (rest & -> & X3 & Hrest & Hfail).
  { destruct err2 as [e2 |].
    - injection H as <- <- <-. eexists. split; [reflexivity |].
      split; [apply Close_extends |]. rewrite Hname.
      split; [intros d r Hin; event_cases Hin | done].
    - destruct (os.Create (Copy_To copy1) w2) as [w3 [target | e3]] eqn:Hcr.
      + rewrite NewWriter_ReadFrom in H.
        destruct (os.ReadFrom target source w3) as [[w4 n] err4] eqn:Hrd.
        injection H as <- <- <-. eexists. split; [reflexivity |]. split.
        * exact (extends_trans _ _ _ _ _
                   (extends_trans _ _ _ _ _
                      (extends_trans _ _ _ _ _ (Create_extends _ _ _ _ Hcr)
                         (File_ReadFrom_extends _ _ _ _ _ _ Hrd))
                      (Close_extends target w4))
                   (Close_extends source _)).
        * split; [intros d r Hin; event_cases Hin | done].
      + injection H as <- <- <-. eexists. split; [reflexivity |]. split.
        * exact (extends_trans _ _ _ _ _ (Create_extends _ _ _ _ Hcr)
                   (Close_extends source _)).
        * split; [intros d r Hin; event_cases Hin | done]. }
  destruct (mkdir_step _ _ _ _ _ Hmk) as [[Hpos X2] | (Hle & -> & ->)].
  - split; [lia |]. intros _. exists err2, rest.
    rewrite (extends_events _ _ _
               (extends_trans _ _ _ _ _ (extends_trans _ _ _ _ _ X1 X2) X3)).
    split; [reflexivity | split; [exact Hrest | exact Hfail]].
  - split; [| lia]. intros _ d r Hin.
    rewrite (extends_events _ _ _ (extends_trans _ _ _ _ _ X1 X3)) in Hin.
    simpl in Hin. destruct Hin as [Hin | Hin]; [discriminate Hin |].
    by apply Hrest in Hin.
Qed.

Lemma Copy_mkdir_rule_witness :
  (strings_LastIndex "b/c.txt" "/" <= 0 ->
   forall d r,
     ~ In (EvMkdirAll d r)
          (events_since sample_world
             (Copy_exec "/out" {| Copy_From := "a.txt"; Copy_To := "b/c.txt" |}
                        sample_world).1.1))
  /\ (0 < strings_LastIndex "b/c.txt" "/" ->
      exists r rest,
        events_since sample_world
          (Copy_exec "/out" {| Copy_From := "a.txt"; Copy_To := "b/c.txt" |}
                     sample_world).1.1
        = EvOpen "a.txt" None :: EvMkdirAll "b" r :: rest
        /\ (forall d' r', ~ In (EvMkdirAll d' r') rest)
        /\ (r <> None ->
            (Copy_exec "/out" {| Copy_From := "a.txt"; Copy_To := "b/c.txt" |}
                       sample_world).2 = r
            /\ rest = [EvClose "a.txt"])).
Proof.
  set (copy := {| Copy_From := "a.txt"; Copy_To := "b/c.txt" |}).
  set (r := Copy_exec "/out" copy sample_world).
  refine (Copy_mkdir_rule "/out" copy sample_world
            (log (EvOpen "a.txt" None) sample_world) r.1.1
            {| File_name := "a.txt"; File_path := "/work/a.txt" |}
            r.1.2 r.2 _ (triple_eta r)).
  vm_compute. reflexivity.
Defined.

Lemma text_nonempty (l : list ascii) : l <> [] -> text l <> "".
Proof. destruct l; [done | discriminate]. Qed.

Lemma Clean_nonempty (path : string) : filepath.Clean path <> "".
Proof.
  unfold filepath.Clean. destruct (chars path) as [| c tl]; [discriminate |].
  destruct (if filepath.IsPathSeparator c then _ else _) as [| a out];
    [discriminate |].
  apply text_nonempty. simpl. by destruct (rev out).
Qed.

Lemma Join_nonempty (path name : string) :
  name <> "" -> filepath.Join [path; name] <> "".
Proof.
  intros Hname. unfold filepath.Join.
  destruct path as [| c path]; simpl.
  - destruct name; [done |]. apply Clean_nonempty.
  - apply Clean_nonempty.
Qed.

(** X12: the default destination is computed once.  After a Copy whose
    source opened the struct holds a destination that is not empty, and
    executing the same struct again, in any world and under any deploy
    folder, leaves source and destination as they are. *)
Theorem Copy_default_cached (path : string) (copy : Copy) (w w1 w' : World)
    (source : File) (copy' : Copy) (err : error) :
  os.Open (Copy_From copy) w = (w1, inl source) ->
  Copy_exec path copy w = (w', copy', err) ->
  Copy_To copy' <> ""
  /\ forall path2 w2,
       (Copy_exec path2 copy' w2).1.2 = copy'.
Proof.
  intros Hopen H.
  destruct (Open_ok _ _ _ _ Hopen) as (Hname & _ & _ & Hfrom).
  assert (Hto : Copy_To copy' <> "").
  { pose proof (Copy_exec_settings path copy w) as [_ Hkeep].
    rewrite H in Hkeep. simpl in Hkeep.
    destruct (String.eqb_spec (Copy_To copy) "") as [Hempty | Hset].
    - unfold Copy_exec in H. rewrite Hopen, Hempty in H. simpl in H.
      unfold os.Name in H. rewrite Hname in H.
      assert (Copy_To copy' = filepath.Join [path; Copy_From copy]) as ->.
      { destruct (if 0 <? _ then _ else _) as [w2 [e2 |]];
          [by injection H as _ <- _ |].
        destruct (os.Create _ w2) as [w3 [target | e3]];
          [| by injection H as _ <- _].
        destruct (bufio.ReadFrom _ source w3) as [[[w4 b] n] err4].
        by injection H as _ <- _. }
      by apply Join_nonempty.
    - by rewrite Hkeep. }
  split; [exact Hto |]. intros path2 w2.
  pose proof (Copy_exec_settings path2 copy' w2) as [Hf Ht].
  specialize (Ht Hto).
  destruct (Copy_exec path2 copy' w2).1.2 as [f t], copy' as [f' t'].
  simpl in *. congruence.
Qed.

Lemma Copy_default_cached_witness :
  Copy_To (Copy_exec "/out" plain_copy sample_world).1.2 <> ""
  /\ forall path2 w2,
       (Copy_exec path2 (Copy_exec "/out" plain_copy sample_world).1.2 w2).1.2
       = (Copy_exec "/out" plain_copy sample_world).1.2.
Proof.
  set (r := Copy_exec "/out" plain_copy sample_world).
  refine (Copy_default_cached "/out" plain_copy sample_world
            (log (EvOpen "a.txt" None) sample_world) r.1.1
            {| File_name := "a.txt"; File_path := "/work/a.txt" |}
            r.1.2 r.2 _ (triple_eta r)).
  vm_compute. reflexivity.
Defined.

(** *** Move: what it touches *)

Lemma Rename_disk_free (oldpath newpath : string) (w w' : World) (r : error) :
  os.Rename oldpath newpath w = (w', r) -> disk_free w' = disk_free w.
Proof.
  unfold os.Rename.
  destruct (if String.eqb oldpath "" || String.eqb newpath "" then _ else _)
    as [m r'].
  by intros [= <- <-].
Qed.

Lemma move_tree_bytes (old new : string) (m : gmap string Inode) (p : string)
    (d : bytes) :
  move_tree old new m !! p = Some (IFile d) ->
  exists q, m !! q = Some (IFile d).
Proof.
  unfold move_tree. intros H.
  apply lookup_union_Some_raw in H as [H | [_ H]].
  - apply elem_of_list_to_map_2 in H.
    apply list_elem_of_fmap in H as ([k v] & [= _ ->] & Hin).
    apply list_elem_of_filter in Hin as [_ Hin].
    apply elem_of_map_to_list in Hin. by exists k.
  - apply map_lookup_filter_Some in H as [H _]. by exists p.
Qed.

(** A rename moves regular files and writes none. *)
Lemma Rename_bytes (oldpath newpath : string) (w w' : World) (r : error)
    (p : string) (d : bytes) :
  os.Rename oldpath newpath w = (w', r) ->
  fs w' !! p = Some (IFile d) ->
  exists q, fs w !! q = Some (IFile d).
Proof.
  unfold os.Rename.
  set (o := resolve w oldpath). set (n := resolve w newpath).
  destruct (if String.eqb oldpath "" || String.eqb newpath "" then _ else _)
    as [m r'] eqn:Hm.
  intros [= <- _]. simpl. intros Hp.
  assert (m = fs w \/ (exists data, inode w o = Some (IFile data)
                                    /\ o <> "/"
                                    /\ m = <[n := IFile data]> (delete o (fs w)))
          \/ m = move_tree o n (fs w)) as [-> | [(data & Ho & Hroot & ->) | ->]].
  { destruct (String.eqb oldpath "" || String.eqb newpath "");
      [left; by injection Hm as <- _ |].
    destruct (String.eqb_spec o "/") as [| Hroot];
      [left; by injection Hm as <- _ |].
    destruct (String.eqb n "/"); [left; by injection Hm as <- _ |].
    simpl in Hm.
    destruct (inode w o) as [src |] eqn:Ho; [| left; by injection Hm as <- _].
    destruct (is_file w (parent n)); [left; by injection Hm as <- _ |].
    destruct (negb (is_dir w (parent n))); [left; by injection Hm as <- _ |].
    destruct (String.eqb o n); [left; by injection Hm as <- _ |].
    destruct src as [data |].
    - destruct (inode w n) as [[dn |] |];
        [ | left; by injection Hm as <- _ | ];
        (right; left; exists data; by injection Hm as <- _).
    - destruct (inode w n) as [[dn |] |];
        [left; by injection Hm as <- _ | | ];
        (destruct (under o n); [left; by injection Hm as <- _ |];
         destruct (has_children w n); [left; by injection Hm as <- _ |];
         right; right; by injection Hm as <- _). }
  - by exists p.
  - rewrite lookup_insert in Hp. case_decide.
    + injection Hp as <-. exists o. by rewrite <- inode_not_root.
    + rewrite lookup_delete in Hp. case_decide; [discriminate Hp |].
      by exists p.
  - by apply move_tree_bytes in Hp.
Qed.

Lemma mkdir_step_bytes (folder : Z) (to : string) (w w2 : World) (err : error)
    (p : string) (d : bytes) :
  (if 0 <? folder then os.MkdirAll (slice_to to folder) w else (w, None))
  = (w2, err) ->
  fs w2 !! p = Some (IFile d) -> fs w !! p = Some (IFile d).
Proof.
  destruct (0 <? folder); [| by intros [= <- _]].
  unfold os.MkdirAll.
  destruct (String.eqb _ ""); [by intros [= <- _] |].
  destruct (existsb _ _); [by intros [= <- _] |].
  intros [= <- _]. simpl. apply mkdirs_lookup_file.
Qed.

(** X13: a Move writes no bytes, whatever it returns: it never calls
    [Create] or a transfer, it uses no room on the device, and every regular
    file the file system holds afterwards it held before with the same
    bytes, under the same path or under the path it was renamed from. *)
Theorem Move_writes_nothing (path : string) (move : Move) (w w' : World)
    (move' : Move) (err : error) :
  Move_exec path move w = (w', move', err) ->
  (forall e, In e (events_since w w') -> writes_bytes e = false)
  /\ disk_free w' = disk_free w
  /\ forall p d, fs w' !! p = Some (IFile d) ->
                 exists q, fs w !! q = Some (IFile d).
Proof.
  unfold Move_exec. intros H.
  destruct (os.Open (Move_From move) w) as [w1 [source | e]] eqn:Hopen;
    pose proof (Open_extends _ _ _ _ Hopen) as X1;
    destruct (Open_fs _ _ _ _ Hopen) as [Hfs1 Hfree1].
  2: { injection H as <- _ _. rewrite (extends_events _ _ _ X1).
       split; [| split; [done |]].
       - intros ev Hin. event_cases Hin. by subst ev.
       - intros p d Hp. exists p. by rewrite <- Hfs1. }
  destruct (if 0 <? strings_LastIndex (Move_To move) "/" then _ else _)
    as [w2 err2] eqn:Hmk.
  assert (exists evs, extends w1 w2 evs
                      /\ forall ev, In ev evs -> writes_bytes ev = false)
    as (evs & X2 & Hevs).
  { destruct (mkdir_step _ _ _ _ _ Hmk) as [[_ X] | (_ & -> & _)].
    - eexists. split; [exact X |]. intros ev Hin. event_cases Hin.
      by subst ev.
    - exists []. split; [apply extends_refl | intros ? []]. }
  pose proof (extends_trans _ _ _ _ _ X1 X2) as X.
  pose proof (mkdir_step_disk_free _ _ _ _ _ Hmk) as Hfree2.
  destruct err2 as [e2 |].
  { injection H as <- _ _.
    rewrite (extends_events _ _ _
               (extends_trans _ _ _ _ _ X (Close_extends source w2))).
    split; [| split; [simpl; congruence |]].
    - intros ev Hin. event_cases Hin; try (by subst ev). by apply Hevs.
    - intros p d Hp. exists p. rewrite <- Hfs1.
      by apply (mkdir_step_bytes _ _ _ _ _ _ _ Hmk). }
  set (move1 := if String.eqb (Move_To move) "" then _ else move) in H.
  destruct (os.Rename (Move_From move1) (Move_To move1) w2)
    as [w3 err3] eqn:Hren.
  injection H as <- _ _.
  rewrite (extends_events _ _ _
             (extends_trans _ _ _ _ _
                (extends_trans _ _ _ _ _ X (Rename_extends _ _ _ _ _ Hren))
                (Close_extends source w3))).
  split; [| split].
  - intros ev Hin. event_cases Hin; try (by subst ev). by apply Hevs.
  - simpl. rewrite (Rename_disk_free _ _ _ _ _ Hren). congruence.
  - intros p d Hp.
    destruct (Rename_bytes _ _ _ _ _ _ _ Hren Hp) as [q Hq].
    exists q. rewrite <- Hfs1.
    by apply (mkdir_step_bytes _ _ _ _ _ _ _ Hmk).
Qed.

Lemma Move_writes_nothing_witness :
  (forall e,
     In e (events_since sample_world
             (Move_exec "/out" moved_to_c sample_world).1.1) ->
     writes_bytes e = false)
  /\ disk_free (Move_exec "/out" moved_to_c sample_world).1.1
     = disk_free sample_world
  /\ forall p d,
       fs (Move_exec "/out" moved_to_c sample_world).1.1 !! p = Some (IFile d) ->
       exists q, fs sample_world !! q = Some (IFile d).
Proof.
  set (r := Move_exec "/out" moved_to_c sample_world).
  exact (Move_writes_nothing "/out" moved_to_c sample_world r.1.1 r.1.2 r.2
           (triple_eta r)).
Defined.

(** X14: where Move creates directories.  Once the source is open, a Move
    whose configured [to] has its last separator past the first byte calls
    [MkdirAll] on the part of [to] before that separator, then renames
    [from] to [to] and returns the error of the rename; if [MkdirAll] fails
    it returns that error and renames nothing.  [to] stays as configured. *)
Theorem Move_mkdir_rule (path : string) (move : Move) (w w1 w' : World)
    (source : File) (move' : Move) (err : error) :
  os.Open (Move_From move) w = (w1, inl source) ->
  Move_exec path move w = (w', move', err) ->
  0 < strings_LastIndex (Move_To move) "/" ->
  Move_To move' = Move_To move
  /\ exists r,
       events_since w w'
       = EvOpen (Move_From move) None
           :: EvMkdirAll (slice_to (Move_To move)
                                   (strings_LastIndex (Move_To move) "/")) r
           :: match r with
              | None => [EvRename (Move_From move) (Move_To move) err;
                         EvClose (Move_From move)]
              | Some _ => [EvClose (Move_From move)]
              end
       /\ (r <> None -> err = r).
Proof.
  intros Hopen H Hpos. unfold Move_exec in H. rewrite Hopen in H.
  destruct (Open_ok _ _ _ _ Hopen) as (Hname & _ & _ & _).
  pose proof (Open_extends _ _ _ _ Hopen) as X1. simpl in X1.
  assert (Hto : String.eqb (Move_To move) "" = false).
  { apply String.eqb_neq. intros Hempty. rewrite Hempty in Hpos.
    vm_compute in Hpos. discriminate Hpos. }
  rewrite Hto in H.
  apply Z.ltb_lt in Hpos as Hpos'. rewrite Hpos' in H.
  destruct (os.MkdirAll _ w1) as [w2 err2] eqn:Hmk.
  pose proof (MkdirAll_extends _ _ _ _ Hmk) as X2.
  destruct err2 as [e2 |].
  - injection H as <- <- <-. split; [reflexivity |]. exists (Some e2).
    rewrite (extends_events _ _ _
               (extends_trans _ _ _ _ _
                  (extends_trans _ _ _ _ _ X1 X2) (Close_extends source w2))).
    rewrite Hname. by split.
  - destruct (os.Rename (Move_From move) (Move_To move) w2)
      as [w3 err3] eqn:Hren.
    injection H as <- <- <-. split; [reflexivity |]. exists None.
    rewrite (extends_events _ _ _
               (extends_trans _ _ _ _ _
                  (extends_trans _ _ _ _ _
                     (extends_trans _ _ _ _ _ X1 X2)
                     (Rename_extends _ _ _ _ _ Hren))
                  (Close_extends source w3))).
    rewrite Hname. by split.
Qed.

Lemma Move_mkdir_rule_witness :
  Move_To (Move_exec "/out" moved_to_c sample_world).1.2 = Move_To moved_to_c
  /\ exists r,
       events_since sample_world (Move_exec "/out" moved_to_c sample_world).1.1
       = EvOpen "a.txt" None
           :: EvMkdirAll "b" r
           :: match r with
              | None => [EvRename "a.txt" "b/c.txt"
                                  (Move_exec "/out" moved_to_c sample_world).2;
                         EvClose "a.txt"]
              | Some _ => [EvClose "a.txt"]
              end
       /\ (r <> None -> (Move_exec "/out" moved_to_c sample_world).2 = r).
Proof.
  set (r := Move_exec "/out" moved_to_c sample_world).
  refine (Move_mkdir_rule "/out" moved_to_c sample_world
            (log (EvOpen "a.txt" None) sample_world) r.1.1
            {| File_name := "a.txt"; File_path := "/work/a.txt" |}
            r.1.2 r.2 _ (triple_eta r) _).
  - vm_compute. reflexivity.
  - reflexivity.
Defined.

(** *** Run: resolution, start, replay *)

(** [Run], one case after the other. *)
Lemma Run_exec_eq (run : Run) (w : World) :
  Run_exec run w
  = let path := (resolved_path run w).1 in
    let ev := resolution_event run w in
    match (resolved_path run w).2 with
    | Some e => (log ev w, run, Some e)
    | None =>
        let c := command_for run path w in
        match Host_spawn (host w) c with
        | inr e =>
            (log (EvStart c (Some e)) (log ev w), set_Run_Path path run, Some e)
        | inl proc =>
            let '(w3, one) :=
              os.Replay Stdout (Proc_stdout proc)
                (log (EvWait (Proc_wait proc))
                     (log (EvStart c None) (log ev w))) in
            let '(w4, two) := os.Replay Stderr (Proc_stderr proc) w3 in
            (w4, set_Run_Path path run, errors.Join [Proc_wait proc; one; two])
        end
    end.
Proof.
  unfold Run_exec, resolution_event, resolved_path, exec.LookPath, os.Getwd.
  destruct (String.eqb (filepath.Base (Run_Path run)) (Run_Path run)).
  - destruct (Host_look_path (host w) (Run_Path run)) as [path [e |]];
      [reflexivity |].
    cbn -[os.Replay command_for errors.Join]. unfold command_for.
    change (os.Environ (log (EvLookPath (Run_Path run) None) w))
      with (os.Environ w).
    by destruct (Host_spawn (host w) _).
  - destruct (Host_getwd (host w)) as [e |]; [reflexivity |].
    cbn -[os.Replay command_for errors.Join filepath.Join]. unfold command_for.
    change (os.Environ (log (EvGetwd None) w)) with (os.Environ w).
    by destruct (Host_spawn (host w) _).
Qed.

Lemma Replay_eq (s : Stream) (buffer : bytes) (w : World) :
  let fault := match s with
               | Stdout => Host_stdout (host w)
               | Stderr => Host_stderr (host w)
               end in
  let '(w', r) := os.Replay s buffer w in
  r = replay_error fault buffer
  /\ host w' = host w
  /\ trace w' = (trace w ++ [EvReplay s buffer r])%list
  /\ stdout w' = (stdout w ++ match s with
                              | Stdout => replayed fault buffer
                              | Stderr => []
                              end)%list
  /\ stderr w' = (stderr w ++ match s with
                              | Stdout => []
                              | Stderr => replayed fault buffer
                              end)%list.
Proof.
  unfold os.Replay, replay_error, replayed.
  destruct s, buffer as [| b buffer];
    destruct (Host_stdout (host w)), (Host_stderr (host w)); simpl;
    by rewrite ?app_nil_r.
Qed.

Lemma replay_both (out errb : bytes) (w0 : World) :
  let '(w3, one) := os.Replay Stdout out w0 in
  let '(w4, two) := os.Replay Stderr errb w3 in
  one = replay_error (Host_stdout (host w0)) out
  /\ two = replay_error (Host_stderr (host w0)) errb
  /\ trace w4
     = (trace w0 ++ [EvReplay Stdout out one; EvReplay Stderr errb two])%list
  /\ stdout w4 = (stdout w0 ++ replayed (Host_stdout (host w0)) out)%list
  /\ stderr w4 = (stderr w0 ++ replayed (Host_stderr (host w0)) errb)%list.
Proof.
  pose proof (Replay_eq Stdout out w0) as H1.
  destruct (os.Replay Stdout out w0) as [w3 one].
  pose proof (Replay_eq Stderr errb w3) as H2.
  destruct (os.Replay Stderr errb w3) as [w4 two].
  simpl in H1, H2.
  destruct H1 as (-> & Hh & Ht & Ho & He), H2 as (-> & Hh' & Ht' & Ho' & He').
  rewrite Hh. repeat split.
  - rewrite Ht', Ht, Hh. by rewrite <- app_assoc.
  - rewrite Ho', Ho. by rewrite app_nil_r.
  - rewrite He', He, Hh. by rewrite app_nil_r.
Qed.

(** X15: a [path] that is its own base name (a bare program name) is looked
    up on the search path.  When the lookup succeeds [Run] stores the path
    found in the struct and starts exactly that: the command's path is the
    path found, and its argument vector is that path followed by [query],
    unchanged.  The working directory is not asked for. *)
Theorem Run_bare_name (run : Run) (w w' : World) (run' : Run) (err : error)
    (found : string) :
  filepath.Base (Run_Path run) = Run_Path run ->
  Host_look_path (host w) (Run_Path run) = (found, None) ->
  Run_exec run w = (w', run', err) ->
  Run_Path run' = found
  /\ Cmd_Path (command_for run found w) = found
  /\ Cmd_Args (command_for run found w) = found :: Run_Query run
  /\ exists r rest,
       events_since w w'
       = EvLookPath (Run_Path run) None
           :: EvStart (command_for run found w) r :: rest
       /\ forall e, In e rest -> e <> EvGetwd None.
Proof.
  intros Hbase Hlook H. rewrite Run_exec_eq in H.
  apply String.eqb_eq in Hbase.
  unfold resolution_event, resolved_path in H. rewrite Hbase, Hlook in H.
  simpl in H.
  split; [| split; [| split]].
  - destruct (Host_spawn (host w) (command_for run found w)) as [proc | e].
    + destruct (os.Replay Stdout _ _) as [w3 one].
      destruct (os.Replay Stderr _ _) as [w4 two]. by injection H as _ <- _.
    + by injection H as _ <- _.
  - unfold command_for. by destruct (0 <? Run_Timeout run).
  - unfold command_for. by destruct (0 <? Run_Timeout run).
  - destruct (Host_spawn (host w) (command_for run found w)) as [proc | e].
    + pose proof (replay_both (Proc_stdout proc) (Proc_stderr proc)
                    (log (EvWait (Proc_wait proc))
                       (log (EvStart (command_for run found w) None)
                          (log (EvLookPath (Run_Path run) None) w)))) as Hr.
      destruct (os.Replay Stdout _ _) as [w3 one].
      destruct (os.Replay Stderr _ _) as [w4 two].
      destruct Hr as (_ & _ & Ht & _). injection H as <- _ _.
      eexists _, _. split.
      * apply events_since_app. rewrite Ht. simpl.
        rewrite <- !app_assoc. reflexivity.
      * intros ev Hin. event_cases Hin; by subst ev.
    + injection H as <- _ _. eexists _, _. split.
      * apply events_since_app. simpl. rewrite <- !app_assoc. reflexivity.
      * intros ev [].
Qed.

Lemma Run_bare_name_witness :
  Run_Path (Run_exec hi_run sample_world).1.2 = "/bin/echo"
  /\ Cmd_Path (command_for hi_run "/bin/echo" sample_world) = "/bin/echo"
  /\ Cmd_Args (command_for hi_run "/bin/echo" sample_world)
     = "/bin/echo" :: Run_Query hi_run
  /\ exists r rest,
       events_since sample_world (Run_exec hi_run sample_world).1.1
       = EvLookPath (Run_Path hi_run) None
           :: EvStart (command_for hi_run "/bin/echo" sample_world) r :: rest
       /\ forall e, In e rest -> e <> EvGetwd None.
Proof.
  set (r := Run_exec hi_run sample_world).
  exact (Run_bare_name hi_run sample_world r.1.1 r.1.2 r.2 "/bin/echo"
           eq_refl eq_refl (triple_eta r)).
Defined.

(** X16: when the path does not resolve, because the lookup of a bare name
    fails or because the working directory cannot be read, [Run] returns
    that error at once: the resolution is its only call, no command is
    started, nothing is replayed and [path] stays as configured. *)
Theorem Run_unresolved (run : Run) (w : World) (e : Err) (found : string) :
  (filepath.Base (Run_Path run) = Run_Path run ->
   Host_look_path (host w) (Run_Path run) = (found, Some e) ->
   Run_exec run w = (log (EvLookPath (Run_Path run) (Some e)) w, run, Some e))
  /\ (filepath.Base (Run_Path run) <> Run_Path run ->
      Host_getwd (host w) = Some e ->
      Run_exec run w = (log (EvGetwd (Some e)) w, run, Some e)).
Proof.
  split; intros Hbase Hres; rewrite Run_exec_eq;
    unfold resolution_event, resolved_path.
  - apply String.eqb_eq in Hbase. by rewrite Hbase, Hres.
  - apply String.eqb_neq in Hbase. by rewrite Hbase, Hres.
Qed.

Lemma Run_unresolved_witness :
  Run_exec timed_run (world_of bare_host)
  = (log (EvLookPath "sleep" (Some (ErrExec "sleep" "not found")))
         (world_of bare_host),
     timed_run, Some (ErrExec "sleep" "not found")).
Proof.
  exact (proj1 (Run_unresolved timed_run (world_of bare_host)
                  (ErrExec "sleep" "not found") "")
           eq_refl eq_refl).
Defined.

(** X17: when the command does not start, [Run] returns the error of
    [Start] itself, not a joined one; it does not wait and replays nothing,
    so the supervisor's streams are as they were.  [path] has been
    rewritten to the resolved path all the same. *)
Theorem Run_start_fails (run : Run) (w w' : World) (run' : Run) (err : error)
    (path : string) (e : Err) :
  resolved_path run w = (path, None) ->
  Host_spawn (host w) (command_for run path w) = inr e ->
  Run_exec run w = (w', run', err) ->
  err = Some e
  /\ Run_Path run' = path
  /\ events_since w w'
     = [resolution_event run w; EvStart (command_for run path w) (Some e)]
  /\ stdout w' = stdout w
  /\ stderr w' = stderr w.
Proof.
  intros Hres Hspawn H. rewrite Run_exec_eq, Hres in H. simpl in H.
  rewrite Hspawn in H. injection H as <- <- <-. repeat split.
  apply events_since_app. simpl. by rewrite <- app_assoc.
Qed.

Lemma Run_start_fails_witness :
  (Run_exec absolute_run (world_of bare_host)).2
  = Some (ErrPath "fork/exec" "/work/usr/bin/x" ENOENT)
  /\ Run_Path (Run_exec absolute_run (world_of bare_host)).1.2
     = "/work/usr/bin/x"
  /\ events_since (world_of bare_host)
                  (Run_exec absolute_run (world_of bare_host)).1.1
     = [resolution_event absolute_run (world_of bare_host);
        EvStart (command_for absolute_run "/work/usr/bin/x" (world_of bare_host))
                (Some (ErrPath "fork/exec" "/work/usr/bin/x" ENOENT))]
  /\ stdout (Run_exec absolute_run (world_of bare_host)).1.1
     = stdout (world_of bare_host)
  /\ stderr (Run_exec absolute_run (world_of bare_host)).1.1
     = stderr (world_of bare_host).
Proof.
  set (w := world_of bare_host).
  set (r := Run_exec absolute_run w).
  exact (Run_start_fails absolute_run w r.1.1 r.1.2 r.2 "/work/usr/bin/x"
           (ErrPath "fork/exec" "/work/usr/bin/x" ENOENT)
           eq_refl eq_refl (triple_eta r)).
Defined.

(** X18: once the command has started, whatever [Wait] returns, the
    captured stdout is appended to the supervisor's stdout and the captured
    stderr to its stderr, each in one piece after the subprocess is reaped,
    unless that stream fails; the error returned is the join of the wait
    error with the error of each stream a non-empty buffer could not be
    written to. *)
Theorem Run_replays_output (run : Run) (w w' : World) (run' : Run)
    (err : error) (path : string) (proc : Proc) :
  resolved_path run w = (path, None) ->
  Host_spawn (host w) (command_for run path w) = inl proc ->
  Run_exec run w = (w', run', err) ->
  stdout w'
  = (stdout w ++ replayed (Host_stdout (host w)) (Proc_stdout proc))%list
  /\ stderr w'
     = (stderr w ++ replayed (Host_stderr (host w)) (Proc_stderr proc))%list
  /\ err = errors.Join
             [Proc_wait proc;
              replay_error (Host_stdout (host w)) (Proc_stdout proc);
              replay_error (Host_stderr (host w)) (Proc_stderr proc)].
Proof.
  intros Hres Hspawn H. rewrite Run_exec_eq, Hres in H. simpl in H.
  rewrite Hspawn in H.
  pose proof (replay_both (Proc_stdout proc) (Proc_stderr proc)
                (log (EvWait (Proc_wait proc))
                   (log (EvStart (command_for run path w) None)
                      (log (resolution_event run w) w)))) as Hr.
  destruct (os.Replay Stdout _ _) as [w3 one].
  destruct (os.Replay Stderr _ _) as [w4 two].
  destruct Hr as (-> & -> & _ & Ho & He). by injection H as <- _ <-.
Qed.

Lemma Run_replays_output_witness :
  stdout (Run_exec hi_run sample_world).1.1 = contents "hi"
  /\ stderr (Run_exec hi_run sample_world).1.1 = []
  /\ (Run_exec hi_run sample_world).2 = None.
Proof.
  set (r := Run_exec hi_run sample_world).
  exact (Run_replays_output hi_run sample_world r.1.1 r.1.2 r.2 "/bin/echo"
           {| Proc_stdout := contents "hi"; Proc_stderr := [];
              Proc_wait := None |}
           eq_refl eq_refl (triple_eta r)).
Defined.

Lemma Join_nil (a b c : error) :
  errors.Join [a; b; c] = None -> a = None /\ b = None /\ c = None.
Proof. unfold errors.Join. by destruct a, b, c. Qed.

Lemma wrap64_range (z : Z) : - 2 ^ 63 <= wrap64 z < 2 ^ 63.
Proof.
  unfold wrap64.
  pose proof (Z.mod_pos_bound (z + 2 ^ 63) (2 ^ 64) ltac:(lia)). lia.
Qed.

(** X19: the timeout of the command [Run] starts.  With [timeout <= 0] the
    command has no context; with [0 < timeout <= 9223372036] its context
    times out after [timeout] seconds; beyond that, the multiplication by
    [time.Second] overflows [int64] and the context gets another
    duration. *)
Theorem Run_timeout_context (run : Run) (w w' : World) (run' : Run)
    (err : error) (c : Cmd) (r : error) :
  Run_exec run w = (w', run', err) ->
  In (EvStart c r) (events_since w w') ->
  (Run_Timeout run <= 0 -> Cmd_Timeout c = None)
  /\ (0 < Run_Timeout run <= 9223372036 ->
      Cmd_Timeout c = Some (Run_Timeout run * 1000000000))
  /\ (9223372036 < Run_Timeout run < 2 ^ 63 ->
      exists d, Cmd_Timeout c = Some d /\ d <> Run_Timeout run * 1000000000).
Proof.
  intros Hexec Hin.
  destruct (Run_exec_inv _ _ _ _ _ Hexec) as (ev & path & rerr & Hev & Hrest).
  pose proof (resolution_event_not_start _ _ _ _ _ _ c r Hev) as Hne.
  assert (Hc : c = command_for run path w).
  { destruct rerr as [e |].
    - destruct Hrest as (_ & _ & X). rewrite (extends_events _ _ _ X) in Hin.
      event_cases Hin. by destruct Hne.
    - destruct Hrest as [_ Hrest].
      destruct (Host_spawn (host w) (command_for run path w)) as [proc | e].
      + destruct Hrest as (one & two & _ & X).
        rewrite (extends_events _ _ _ X) in Hin.
        event_cases Hin; [by destruct Hne | by injection Hin as <- _].
      + destruct Hrest as [_ X]. rewrite (extends_events _ _ _ X) in Hin.
        event_cases Hin; [by destruct Hne | by injection Hin as <- _]. }
  subst c. rewrite command_for_timeout.
  split; [| split].
  - intros Hle. by destruct (Z.ltb_spec 0 (Run_Timeout run)); [lia |].
  - intros Hfit. destruct (Z.ltb_spec 0 (Run_Timeout run)); [| lia].
    by rewrite Duration_mul_seconds.
  - intros Hbig. destruct (Z.ltb_spec 0 (Run_Timeout run)); [| lia].
    eexists. split; [reflexivity |].
    pose proof (wrap64_range (wrap64 (Run_Timeout run) * time.Second)) as Hr.
    unfold time.Duration_mul. unfold time.Second in *. lia.
Qed.

Lemma Run_timeout_context_witness :
  (Run_Timeout timed_run <= 0 ->
   Cmd_Timeout (command_for timed_run "/bin/sleep" sample_world) = None)
  /\ (0 < Run_Timeout timed_run <= 9223372036 ->
      Cmd_Timeout (command_for timed_run "/bin/sleep" sample_world)
      = Some (Run_Timeout timed_run * 1000000000))
  /\ (9223372036 < Run_Timeout timed_run < 2 ^ 63 ->
      exists d,
        Cmd_Timeout (command_for timed_run "/bin/sleep" sample_world) = Some d
        /\ d <> Run_Timeout timed_run * 1000000000).
Proof.
  set (r := Run_exec timed_run sample_world).
  refine (Run_timeout_context timed_run sample_world r.1.1 r.1.2 r.2
            (command_for timed_run "/bin/sleep" sample_world) None
            (triple_eta r) _).
  vm_compute. right. left. reflexivity.
Defined.

(** X20: [Run] returns nil only if the path resolved, the command started,
    [Wait] returned nil, and all the output the subprocess produced is on
    the supervisor's streams: its stdout after what stdout held, its stderr
    after what stderr held. *)
Theorem Run_success (run : Run) (w w' : World) (run' : Run) :
  Run_exec run w = (w', run', None) ->
  exists path proc,
    resolved_path run w = (path, None)
    /\ Host_spawn (host w) (command_for run path w) = inl proc
    /\ Proc_wait proc = None
    /\ Run_Path run' = path
    /\ stdout w' = (stdout w ++ Proc_stdout proc)%list
    /\ stderr w' = (stderr w ++ Proc_stderr proc)%list.
Proof.
  intros H. rewrite Run_exec_eq in H.
  destruct (resolved_path run w) as [path [e |]] eqn:Hres; [discriminate H |].
  simpl in H.
  destruct (Host_spawn (host w) (command_for run path w)) as [proc | e]
    eqn:Hspawn; [| discriminate H].
  pose proof (replay_both (Proc_stdout proc) (Proc_stderr proc)
                (log (EvWait (Proc_wait proc))
                   (log (EvStart (command_for run path w) None)
                      (log (resolution_event run w) w)))) as Hr.
  destruct (os.Replay Stdout _ _) as [w3 one].
  destruct (os.Replay Stderr _ _) as [w4 two].
  destruct Hr as (-> & -> & _ & Ho & He). injection H as <- <- Hnil.
  apply Join_nil in Hnil as (Hwait & Hone & Htwo).
  exists path, proc.
  split; [reflexivity |]. split; [exact Hspawn |]. split; [exact Hwait |].
  split; [reflexivity |]. split.
  - rewrite Ho. simpl. f_equal. unfold replayed, replay_error in *.
    destruct (Proc_stdout proc); [by destruct (Host_stdout (host w)) |].
    by rewrite Hone.
  - rewrite He. simpl. f_equal. unfold replayed, replay_error in *.
    destruct (Proc_stderr proc); [by destruct (Host_stderr (host w)) |].
    by rewrite Htwo.
Qed.

Lemma Run_success_witness :
  exists path proc,
    resolved_path hi_run sample_world = (path, None)
    /\ Host_spawn (host sample_world) (command_for hi_run path sample_world)
       = inl proc
    /\ Proc_wait proc = None
    /\ Run_Path (Run_exec hi_run sample_world).1.2 = path
    /\ stdout (Run_exec hi_run sample_world).1.1
       = (stdout sample_world ++ Proc_stdout proc)%list
    /\ stderr (Run_exec hi_run sample_world).1.1
       = (stderr sample_world ++ Proc_stderr proc)%list.
Proof.
  set (r := Run_exec hi_run sample_world).
  apply (Run_success hi_run sample_world r.1.1 r.1.2).
  vm_compute. reflexivity.
Defined.

(** *** UnmarshalYAML: what a failure leaves behind *)

(** X21: a node that is a scalar or a sequence, not a mapping, is rejected
    by the decoding of the header, and then [UnmarshalYAML] returns that
    error with the Action exactly as it was: no name, no follow, no payload
    is written. *)
Theorem UnmarshalYAML_not_a_mapping {Do : Type} (value : Node)
    (action : Action Do) :
  (forall content, value <> NMapping content) ->
  value <> NNull ->
  exists e, Action_UnmarshalYAML value action = (action, Some e).
Proof.
  intros Hmap Hnull. unfold Action_UnmarshalYAML.
  destruct value as [| v i | items | content]; try done.
  - by eexists.
  - by eexists.
  - by destruct (Hmap content).
Qed.

Lemma UnmarshalYAML_not_a_mapping_witness :
  exists e,
    Action_UnmarshalYAML (NSequence [scalar "copy"]) zero_Action
    = (zero_Action, Some e).
Proof.
  apply (UnmarshalYAML_not_a_mapping (NSequence [scalar "copy"]) zero_Action);
    discriminate.
Defined.

(** X22: once the header has decoded with a known [type], the Action's
    payload is replaced by a struct of that type even when the payload then
    fails to decode: [UnmarshalYAML] returns the payload's error and leaves
    the fields that did decode in the Action. *)
Theorem UnmarshalYAML_payload {Do : Type} (value : Node)
    (action action' : Action Do) (err : error) (t : ActionType) :
  yaml.Decode_ActionType value new_ActionType = (t, None) ->
  Action_UnmarshalYAML value action = (action', err) ->
  (ActionType_Type t = "copy" ->
   Action_Data action' = DataCopy (yaml.Decode_Copy value new_Copy).1
   /\ err = (yaml.Decode_Copy value new_Copy).2)
  /\ (ActionType_Type t = "move" ->
      Action_Data action' = DataMove (yaml.Decode_Move value new_Move).1
      /\ err = (yaml.Decode_Move value new_Move).2)
  /\ (ActionType_Type t = "run" ->
      Action_Data action' = DataRun (yaml.Decode_Run value new_Run).1
      /\ err = (yaml.Decode_Run value new_Run).2).
Proof.
  intros Hhead H. unfold Action_UnmarshalYAML in H. rewrite Hhead in H.
  split; [| split]; intros Hty; rewrite Hty in H;
    cbv beta iota delta [String.eqb Ascii.eqb Bool.eqb] in H;
    unfold yaml.Decode in H; simpl in H.
  - destruct (yaml.Decode_Copy value new_Copy) as [c e].
    by injection H as <- <-.
  - destruct (yaml.Decode_Move value new_Move) as [m e].
    by injection H as <- <-.
  - destruct (yaml.Decode_Run value new_Run) as [r e].
    by injection H as <- <-.
Qed.

Lemma UnmarshalYAML_payload_witness :
  Action_Data
    (Action_UnmarshalYAML
       (NMapping [("type", scalar "copy"); ("from", NSequence []);
                  ("to", scalar "b.txt")]) zero_Action).1
  = DataCopy {| Copy_From := ""; Copy_To := "b.txt" |}
  /\ (Action_UnmarshalYAML
        (NMapping [("type", scalar "copy"); ("from", NSequence []);
                   ("to", scalar "b.txt")]) zero_Action).2
     = Some (ErrYaml "cannot unmarshal into string").
Proof.
  set (value := NMapping [("type", scalar "copy"); ("from", NSequence []);
                          ("to", scalar "b.txt")]).
  exact (proj1 (UnmarshalYAML_payload value zero_Action
                  (Action_UnmarshalYAML value zero_Action).1
                  (Action_UnmarshalYAML value zero_Action).2
                  {| ActionType_Type := "copy"; ActionType_Name := "";
                     ActionType_Follow := "" |}
                  eq_refl (surjective_pairing _))
           eq_refl).
Defined.

(** *** The directory part of a destination *)

Lemma substring_prefix (a b : string) :
  String.substring 0 (String.length a) (a ++ b) = a.
Proof.
  induction a as [| c a IH]; [by destruct b |].
  rewrite append_cons. simpl. by rewrite IH.
Qed.

Lemma length_append (a b : string) :
  String.length (a ++ b) = (String.length a + String.length b)%nat.
Proof.
  induction a as [| c a IH]; [done |]. rewrite append_cons. simpl. by rewrite IH.
Qed.

Lemma last_index_from_cons (c : ascii) (s : string) (i acc : Z) :
  last_index_from "/" (String c s) i acc
  = last_index_from "/" s (i + 1)
      (if filepath.IsPathSeparator c then i else acc).
Proof.
  change (last_index_from "/" (String c s) i acc)
    with (last_index_from "/" s (i + 1)
            (if String.prefix "/" (String c s) then i else acc)).
  change (String.prefix "/" (String c s))
    with (if ascii_dec "/"%char c then String.prefix "" s else false).
  unfold filepath.IsPathSeparator, filepath.Separator.
  destruct (ascii_dec "/"%char c) as [<- | Hc]; [by destruct s |].
  destruct (Ascii.eqb_spec c "/"%char) as [-> |]; [by destruct Hc | done].
Qed.

Lemma last_index_from_spec (s : string) (i acc : Z) :
  (has_separator s = false /\ last_index_from "/" s i acc = acc)
  \/ exists pre rest,
       s = pre ++ "/" ++ rest
       /\ has_separator rest = false
       /\ last_index_from "/" s i acc = i + Z.of_nat (String.length pre).
Proof.
  revert i acc. induction s as [| c s IH]; intros i acc.
  - left. by split.
  - rewrite last_index_from_cons.
    destruct (IH (i + 1) (if filepath.IsPathSeparator c then i else acc))
      as [[Hno Hr] | (pre & rest & -> & Hrest & Hr)].
    + rewrite Hr. destruct (filepath.IsPathSeparator c) eqn:Hc.
      * right. exists "", s. split; [| split; [done | simpl; lia]].
        apply Ascii.eqb_eq in Hc. by subst c.
      * left. split; [| done]. unfold has_separator in *. simpl.
        by rewrite Hc, Hno.
    + right. exists (String c pre), rest. split; [done |]. split; [done |].
      rewrite Hr. simpl String.length. lia.
Qed.

(** X23: the directory [Copy] and [Move] pass to [MkdirAll].  When the
    destination has a separator, [strings.LastIndex] is the position of the
    last one, inside the string, so the slice [to[:folder]] is in range; the
    destination is that slice, the separator, and a last element with no
    separator in it.  Without a separator the index is -1. *)
Theorem LastIndex_directory (to : string) :
  (has_separator to = false /\ strings_LastIndex to "/" = -1)
  \/ (0 <= strings_LastIndex to "/" < Z.of_nat (String.length to)
      /\ exists last,
           to = slice_to to (strings_LastIndex to "/") ++ "/" ++ last
           /\ has_separator last = false).
Proof.
  unfold strings_LastIndex.
  destruct (last_index_from_spec to 0 (-1))
    as [[Hno Hr] | (pre & rest & Hto & Hrest & Hr)].
  - left. by split.
  - right. rewrite Hr. subst to. split.
    + rewrite !length_append. simpl. lia.
    + exists rest. split; [| done]. unfold slice_to.
      by rewrite Z.add_0_l, Nat2Z.id, substring_prefix.
Qed.

(** *** Move: a default destination in a directory that is not there *)

(** X24: [Move] creates directories for a configured [to] only.  When [to]
    is omitted and the directory of the default destination does not exist
    (the deploy folder is missing, or [from] has a directory part that the
    deploy folder lacks), the Move fails and the file system is as it was:
    the source stays where it is. *)
Theorem Move_default_needs_directory (path : string) (move : Move)
    (w w' : World) (move' : Move) (err : error) :
  Move_To move = "" ->
  is_dir w (parent (resolve w (filepath.Join [path; Move_From move]))) = false ->
  Move_exec path move w = (w', move', err) ->
  err <> None /\ fs w' = fs w.
Proof.
  intros Hto Hdir H. unfold Move_exec in H.
  destruct (os.Open (Move_From move) w) as [w1 [source | e]] eqn:Hopen;
    destruct (Open_fs _ _ _ _ Hopen) as [Hfs1 _];
    [| by injection H as <- _ <-].
  destruct (Open_ok _ _ _ _ Hopen) as (Hname & _ & _ & _).
  destruct (Open_extends _ _ _ _ Hopen) as [Hh1 _].
  rewrite Hto in H. simpl in H. unfold os.Name in H. rewrite Hname in H.
  set (to := filepath.Join [path; Move_From move]) in *.
  unfold os.Rename in H.
  rewrite (resolve_host w w1 to) in H by done.
  assert (Hdir1 : is_dir w1 (parent (resolve w to)) = false).
  { unfold is_dir in *. by rewrite (inode_same_fs w w1). }
  destruct (String.eqb (Move_From move) "" || String.eqb to "");
    [by injection H as <- _ <- |].
  destruct (String.eqb (resolve w1 (Move_From move)) "/"
            || String.eqb (resolve w to) "/");
    [by injection H as <- _ <- |].
  destruct (inode w1 (resolve w1 (Move_From move)));
    [| by injection H as <- _ <-].
  destruct (is_file w1 (parent (resolve w to)));
    [by injection H as <- _ <- |].
  rewrite Hdir1 in H. by injection H as <- _ <-.
Qed.

Lemma Move_default_needs_directory_witness :
  (Move_exec "/out" {| Move_From := "dir/a.txt"; Move_To := "" |}
             sample_world).2 <> None
  /\ fs (Move_exec "/out" {| Move_From := "dir/a.txt"; Move_To := "" |}
                   sample_world).1.1
     = fs sample_world.
Proof.
  set (move := {| Move_From := "dir/a.txt"; Move_To := "" |}).
  set (r := Move_exec "/out" move sample_world).
  exact (Move_default_needs_directory "/out" move sample_world r.1.1 r.1.2 r.2
           eq_refl eq_refl (triple_eta r)).
Defined.

(** The same record as a Copy: the directory is created and the copy
    succeeds. *)
Example Copy_default_creates_directory :
  let '(w', _, err) := Copy_exec "/out" nested_copy sample_world in
  err = None /\ stat w' "/out/dir" = Some IDir
  /\ stat w' "/out/dir/a.txt" = Some (IFile (contents "nested")).
Proof. vm_compute. repeat split. Qed.
